(** * parameterize: dynamically scoped parameters

    A shallow embedding of [parameterize.py] and the properties of its
    chained environments, scoped acquisition and [Parameter] objects.

    Python objects that are mutated in place and shared by reference (the
    dictionaries behind the frames) live in a heap and are named by
    references; [Environment] objects never reassign [_data] or [_parent]
    after [__init__], so they are immutable records holding a reference.
    Methods are computations in a state-and-exception monad that also reads
    the identity of the executing thread.

    Left out: [ParameterProxy], whose [__getattr__] rests on Python's
    attribute lookup on arbitrary values, and the collection of root
    entries whose weakly referenced key has died (every key used below is
    a live object). *)

From stdpp Require Import gmap strings list fin_maps.
From Stdlib Require Import ZArith.

Local Open Scope Z_scope.
Local Open Scope string_scope.

(** ** Values, keys, exceptions *)

(** Binding keys are compared by object identity: a key is the identity of
    a Python object.  Dictionaries are named by heap references, threads by
    numbers. *)
Abbreviation key := positive (only parsing).
Abbreviation ref := positive (only parsing).
Abbreviation tid := nat (only parsing).

(** The Python values the tests store in parameters. *)
Inductive value : Type :=
  | VNone
  | VInt (n : Z)
  | VStr (s : string).

#[global] Instance value_eq_dec : EqDecision value.
Proof. solve_decision. Defined.

(** The exceptions the module raises or lets through.  [KeyError] is the
    specification's UnboundKey and [TypeError] its InvalidArity. *)
Inductive exn : Type :=
  | KeyError (k : key)
  | TypeError (msg : string)
  | AttributeError (name : string)
  | ValueError (msg : string)
  | OtherError (tag : string).

(** ** Environment objects (class [Environment]) *)

(** [Environment(d, parent)]: a frame holds the reference of its dictionary
    and its parent frame, [None] for a root. *)
#[local] Unset Elimination Schemes.
Inductive Environment : Type :=
  | Env (_data : ref) (_parent : option Environment).
#[local] Set Elimination Schemes.

Definition _data (e : Environment) : ref :=
  match e with Env d _ => d end.

Definition _parent (e : Environment) : option Environment :=
  match e with Env _ p => p end.

(** Induction along the parent chain. *)
Fixpoint Environment_chain_ind (P : Environment → Prop)
    (Hroot : ∀ d, P (Env d None))
    (Hchild : ∀ d p, P p → P (Env d (Some p)))
    (e : Environment) : P e :=
  match e with
  | Env d None => Hroot d
  | Env d (Some p) => Hchild d p (Environment_chain_ind P Hroot Hchild p)
  end.

(** The dictionaries of a chain, innermost first. *)
Fixpoint env_refs (e : Environment) : list positive :=
  match e with
  | Env d None => [d]
  | Env d (Some p) => d :: env_refs p
  end.

(** ** Program state *)

(** [heap]: the dictionaries; [live]: the identities of the objects
    allocated so far; [context_local]: the [dynamic_environment] attribute
    of the [threading.local()] object, one slot per thread, absent in a
    thread that never assigned it. *)
Record state : Type := State {
  heap : gmap positive (gmap positive value);
  live : gset positive;
  context_local : gmap nat Environment;
}.

Definition with_heap (h : gmap positive (gmap positive value)) (s : state) : state :=
  State h (live s) (context_local s).

Definition with_live (l : gset positive) (s : state) : state :=
  State (heap s) l (context_local s).

Definition with_context (c : gmap nat Environment) (s : state) : state :=
  State (heap s) (live s) c.

(** The dictionary a reference names.  Python has no dangling references;
    a reference outside the heap reads as the empty dictionary. *)
Definition dict_of (h : gmap positive (gmap positive value)) (r : ref) : gmap positive value :=
  default ∅ (h !! r).

(** ** The monad of method bodies *)

(** How a piece of code finishes: normally with a result, by an early
    [return] that leaves the enclosing function, or by a raised exception. *)
Inductive outcome (A : Type) : Type :=
  | Normal (a : A)
  | Returned (v : value)
  | Raised (e : exn).
Arguments Normal {A} a.
Arguments Returned {A} v.
Arguments Raised {A} e.

(** A computation is run by a thread on a state. *)
Definition M (A : Type) : Type := nat → state → outcome A * state.

Definition ret {A} (a : A) : M A := fun _ s => (Normal a, s).

Definition bind {A B} (m : M A) (f : A → M B) : M B :=
  fun t s =>
    match m t s with
    | (Normal a, s') => f a t s'
    | (Returned v, s') => (Returned v, s')
    | (Raised e, s') => (Raised e, s')
    end.

Notation "x <~ c ;; k" := (bind c (fun x => k))
  (at level 100, c at next level, right associativity).
Notation "c ;;; k" := (bind c (fun _ => k))
  (at level 100, right associativity).

Definition raise {A} (e : exn) : M A := fun _ s => (Raised e, s).

Definition return_early {A} (v : value) : M A := fun _ s => (Returned v, s).

(** [try: body finally: final].  The final block runs on every outcome of
    the body; the body's outcome continues afterwards unless the final
    block itself raises or returns. *)
Definition try_finally {A} (body : M A) (final : M unit) : M A :=
  fun t s =>
    let '(o, s1) := body t s in
    match final t s1 with
    | (Normal _, s2) => (o, s2)
    | (Returned v, s2) => (Returned v, s2)
    | (Raised e, s2) => (Raised e, s2)
    end.

(** *** Dictionary primitives *)

(** [key in d] *)
Definition dict_contains (d : ref) (k : key) : M bool :=
  fun _ s => (Normal (bool_decide (is_Some (dict_of (heap s) d !! k))), s).

(** [d[key]] *)
Definition dict_getitem (d : ref) (k : key) : M value :=
  fun _ s =>
    match dict_of (heap s) d !! k with
    | Some v => (Normal v, s)
    | None => (Raised (KeyError k), s)
    end.

(** [d[key] = value] *)
Definition dict_setitem (d : ref) (k : key) (v : value) : M unit :=
  fun _ s => (Normal tt, with_heap (<[d := <[k := v]> (dict_of (heap s) d)]> (heap s)) s).

(** [del d[key]] *)
Definition dict_delitem (d : ref) (k : key) : M unit :=
  fun _ s =>
    match dict_of (heap s) d !! k with
    | Some _ => (Normal tt, with_heap (<[d := delete k (dict_of (heap s) d)]> (heap s)) s)
    | None => (Raised (KeyError k), s)
    end.

(** A dictionary display [{k: v, ...}]: a new dictionary object. *)
Definition new_dict (m : gmap positive value) : M positive :=
  fun _ s =>
    let r := fresh (dom (heap s)) in
    (Normal r, with_heap (<[r := m]> (heap s)) s).

(** Allocation of a new object: an identity no object has yet. *)
Definition new_object : M positive :=
  fun _ s =>
    let o := fresh (live s) in
    (Normal o, with_live ({[o]} ∪ live s) s).

(** *** [Environment] methods *)

(** [x is None] *)
Definition is_none {A} (x : option A) : bool :=
  match x with None => true | Some _ => false end.

(** [Environment.__getitem__] *)
Fixpoint Environment_getitem (self : Environment) (k : key) : M value :=
  match self with
  | Env data parent =>
      b <~ dict_contains data k ;;
      if b then dict_getitem data k
      else match parent with
           | Some p => Environment_getitem p k
           | None => raise (KeyError k)
           end
  end.

(** [Environment.__setitem__] *)
Fixpoint Environment_setitem (self : Environment) (k : key) (v : value) : M unit :=
  match self with
  | Env data parent =>
      b <~ dict_contains data k ;;
      if b || is_none parent then dict_setitem data k v
      else match parent with
           | Some p => Environment_setitem p k v
           | None => raise (TypeError "'NoneType' object does not support item assignment")
           end
  end.

(** [Environment.__delitem__] *)
Fixpoint Environment_delitem (self : Environment) (k : key) : M unit :=
  match self with
  | Env data parent =>
      b <~ dict_contains data k ;;
      if b then dict_delitem data k
      else match parent with
           | Some p => Environment_delitem p k
           | None => raise (KeyError k)
           end
  end.

(** ** The context-local slot and the facade (class [EnvironmentProxy]) *)

(** Reading the attribute [_context_local.dynamic_environment] in the
    executing thread; [threading.local()] raises [AttributeError] in a
    thread that never assigned the attribute. *)
Definition get_dynamic_environment : M Environment :=
  fun t s =>
    match context_local s !! t with
    | Some e => (Normal e, s)
    | None => (Raised (AttributeError "dynamic_environment"), s)
    end.

(** Assigning the attribute in the executing thread. *)
Definition set_dynamic_environment (e : Environment) : M unit :=
  fun t s => (Normal tt, with_context (<[t := e]> (context_local s)) s).

(** Module import, lines 46-49: the importing thread creates the root
    dictionary and assigns the attribute, for itself only. *)
Definition module_state (importer : tid) : state :=
  State {[ 1%positive := ∅ ]} ∅ {[ importer := Env 1%positive None ]}.

(** [EnvironmentProxy.__getitem__] *)
Definition EnvironmentProxy_getitem (k : key) : M value :=
  e <~ get_dynamic_environment ;; Environment_getitem e k.

(** [EnvironmentProxy.__setitem__] *)
Definition EnvironmentProxy_setitem (k : key) (v : value) : M unit :=
  e <~ get_dynamic_environment ;; Environment_setitem e k v.

(** [EnvironmentProxy.__delitem__] *)
Definition EnvironmentProxy_delitem (k : key) : M unit :=
  e <~ get_dynamic_environment ;; Environment_delitem e k.

(** [with dynamic_environment.create(data): body].  The generator runs to
    its [yield], the block runs, and the generator's [finally] runs however
    the block finishes: [contextlib] resumes the generator on a normal or
    early exit and throws the block's exception into it otherwise. *)
Definition EnvironmentProxy_create {A} (data : ref) (body : M A) : M A :=
  oldenv <~ get_dynamic_environment ;;
  let newenv := Env data (Some oldenv) in
  set_dynamic_environment newenv ;;;
  try_finally body (set_dynamic_environment oldenv).

(** ** Parameters (class [Parameter]) *)

(** A converter is a Python callable; it returns a value or raises. *)
Definition call_converter (c : value → exn + value) (v : value) : M value :=
  match c v with
  | inl e => raise e
  | inr w => ret w
  end.

(** The default converter [lambda x: x]. *)
Definition identity_converter : value → exn + value := fun x => inr x.

(** A parameter object (an instance of class [Parameter]): its identity,
    which is its binding key, and its [_converter] attribute. *)
Record parameter : Type := {
  self_id : positive;
  _converter : value → exn + value;
}.

(** [Parameter.__init__(self, default, converter)] *)
Definition Parameter_init (self : key) (default : value)
    (conv : value → exn + value) : M parameter :=
  v <~ call_converter conv default ;;
  EnvironmentProxy_setitem self v ;;;
  ret {| self_id := self; _converter := conv |}.

(** The call [Parameter(default, converter)]: a new object, then
    [__init__]. *)
Definition Parameter_new (default : value) (conv : value → exn + value) : M parameter :=
  self <~ new_object ;; Parameter_init self default conv.

(** [Parameter.get] *)
Definition Parameter_get (self : parameter) : M value :=
  EnvironmentProxy_getitem (self_id self).

(** [Parameter.set]: no [return] statement, so the call evaluates to
    [None]. *)
Definition Parameter_set (self : parameter) (v : value) : M value :=
  w <~ call_converter (_converter self) v ;;
  EnvironmentProxy_setitem (self_id self) w ;;;
  ret VNone.

(** [Parameter.__call__(self, *args)] *)
Definition Parameter_call (self : parameter) (args : list value) : M value :=
  match args with
  | [] => Parameter_get self
  | [a] => Parameter_set self a
  | _ => raise (TypeError "__call__() requires either 1 or 2 arguments")
  end.

(** [with self.parameterize(value): body] *)
Definition Parameter_parameterize {A} (self : parameter) (v : value) (body : M A) : M A :=
  w <~ call_converter (_converter self) v ;;
  d <~ new_dict {[ self_id self := w ]} ;;
  EnvironmentProxy_create d body.

(** [with dynamic_environment.create({...}): body] with a dictionary
    display as argument. *)
Definition create_scope {A} (bindings : gmap positive value) (body : M A) : M A :=
  d <~ new_dict bindings ;; EnvironmentProxy_create d body.

(** ** What the specification says about a chain *)

(** The binding a chain shows for a key: the first frame, from the
    innermost outwards, whose own dictionary holds the key. *)
Fixpoint chain_lookup (e : Environment) (k : key)
    (h : gmap positive (gmap positive value)) : option value :=
  match e with
  | Env d parent =>
      match dict_of h d !! k with
      | Some v => Some v
      | None => match parent with
                | Some p => chain_lookup p k h
                | None => None
                end
      end
  end.

(** Where the specification says a write lands: the dictionary of the
    first frame that owns the key, or of the root if no frame does. *)
Fixpoint first_owner_or_root (e : Environment) (k : key)
    (h : gmap positive (gmap positive value)) : positive :=
  match e with
  | Env d None => d
  | Env d (Some p) =>
      if decide (is_Some (dict_of h d !! k)) then d else first_owner_or_root p k h
  end.

(** The key is absent from every dictionary of the chain. *)
Definition unbound_in_chain (e : Environment) (k : key)
    (h : gmap positive (gmap positive value)) : Prop :=
  ∀ r, r ∈ env_refs e → dict_of h r !! k = None.

(** The heap after [d[k] = v] and after [del d[k]]. *)
Definition heap_write (r : ref) (k : key) (v : value)
    (h : gmap positive (gmap positive value)) : gmap positive (gmap positive value) :=
  <[r := <[k := v]> (dict_of h r)]> h.

Definition heap_remove (r : ref) (k : key)
    (h : gmap positive (gmap positive value)) : gmap positive (gmap positive value) :=
  <[r := delete k (dict_of h r)]> h.

(** The outermost frame of a chain. *)
Fixpoint root_frame (e : Environment) : Environment :=
  match e with
  | Env d None => e
  | Env d (Some p) => root_frame p
  end.

(** The frame on which [__setitem__] executes [self._data[key] = value]:
    the first frame that owns the key or has no parent. *)
Fixpoint receiving_frame (e : Environment) (k : key)
    (h : gmap positive (gmap positive value)) : Environment :=
  match e with
  | Env d None => e
  | Env d (Some p) =>
      if decide (is_Some (dict_of h d !! k)) then e else receiving_frame p k h
  end.

(** ** Well-formed states *)

(** Every dictionary of the chain is an object of the heap. *)
Definition chain_allocated (e : Environment) (s : state) : Prop :=
  ∀ r, r ∈ env_refs e → r ∈ dom (heap s).

(** Every key of every dictionary is the identity of an allocated object. *)
Definition keys_live (s : state) : Prop :=
  map_Forall (λ _ d, dom d ⊆ live s) (heap s).

#[global] Instance keys_live_dec (s : state) : Decision (keys_live s).
Proof. unfold keys_live. apply _. Defined.

(** ** The builtin [int] as a converter *)

Definition digit_of (c : Ascii.ascii) : option Z :=
  let n := Z.of_nat (Ascii.nat_of_ascii c) in
  if ((48 <=? n) && (n <=? 57))%Z then Some (n - 48) else None.

Fixpoint digits_value (acc : Z) (s : string) : option Z :=
  match s with
  | EmptyString => Some acc
  | String c rest =>
      match digit_of c with
      | Some d => digits_value (10 * acc + d) rest
      | None => None
      end
  end.

Definition is_char (n : nat) (c : Ascii.ascii) : bool :=
  Nat.eqb (Ascii.nat_of_ascii c) n.

(** An optional sign (45 is the minus sign, 43 the plus sign) and at
    least one digit. *)
Definition decimal_literal (s : string) : option Z :=
  match s with
  | EmptyString => None
  | String c rest =>
      if is_char 45 c then
        match rest with
        | EmptyString => None
        | _ => Z.opp <$> digits_value 0 rest
        end
      else if is_char 43 c then
        match rest with
        | EmptyString => None
        | _ => digits_value 0 rest
        end
      else digits_value 0 s
  end.

(** Python's builtin [int] on the values of the model: an integer is
    returned as it is, a string is read as a signed decimal literal
    (surrounding blanks and digit separators are left out), [None] is a
    type error. *)
Definition py_int (v : value) : exn + value :=
  match v with
  | VInt n => inr (VInt n)
  | VStr s =>
      match decimal_literal s with
      | Some n => inr (VInt n)
      | None => inl (ValueError "invalid literal for int() with base 10")
      end
  | VNone => inl (TypeError "int() argument must be a string or a number, not 'NoneType'")
  end.

(** ** Code that works through parameter objects *)

(** The code of a [with] block that touches the dynamic environment only
    through objects of class [Parameter]: [get], [set], the call sugar,
    construction and nested [parameterize], on any parameters, put together
    with sequencing, [raise], early [return] and [try]/[finally]. *)
Inductive parameter_code : ∀ A : Type, M A → Prop :=
  | pc_ret A (a : A) : parameter_code A (ret a)
  | pc_bind A B (m : M A) (f : A → M B) :
      parameter_code A m → (∀ a, parameter_code B (f a)) →
      parameter_code B (bind m f)
  | pc_raise A (e : exn) : parameter_code A (raise e)
  | pc_return A (v : value) : parameter_code A (return_early v)
  | pc_get (q : parameter) : parameter_code value (Parameter_get q)
  | pc_set (q : parameter) (v : value) : parameter_code value (Parameter_set q v)
  | pc_call (q : parameter) (args : list value) :
      parameter_code value (Parameter_call q args)
  | pc_new (default : value) (conv : value → exn + value) :
      parameter_code parameter (Parameter_new default conv)
  | pc_parameterize A (q : parameter) (v : value) (body : M A) :
      parameter_code A body → parameter_code A (Parameter_parameterize q v body)
  | pc_try_finally A (body : M A) (final : M unit) :
      parameter_code A body → parameter_code unit final →
      parameter_code A (try_finally body final).

(** The chains built on top of the scope frame [Env d0 (Some h)] by nested
    scopes whose dictionaries are not shared with the outer chain [h]. *)
Fixpoint opened_above (h : Environment) (d0 : ref) (e : Environment) : Prop :=
  match e with
  | Env d None => False
  | Env d (Some pe) =>
      (d = d0 ∧ pe = h) ∨ ((d ∉ env_refs h) ∧ opened_above h d0 pe)
  end.

(** What enclosed code maintains while the scope [Env d0 (Some h)] that
    binds [p] is open: the head is a chain above the scope frame, the scope
    still owns [p], the chain is allocated, and the outer chain's bindings
    of [p] are those of the heap [h0] at entry. *)
Record scope_inv (p : positive) (t : nat) (h : Environment) (d0 : positive)
    (h0 : gmap positive (gmap positive value)) (e : Environment) (s : state) : Prop := {
  inv_head : context_local s !! t = Some e;
  inv_above : opened_above h d0 e;
  inv_owned : is_Some (dict_of (heap s) d0 !! p);
  inv_alloc : chain_allocated e s;
  inv_outer : ∀ r, r ∈ env_refs h → dict_of (heap s) r !! p = dict_of h0 r !! p;
}.

(** The state in which the block of [with create(data)] starts, and the
    state the [finally] clause leaves. *)
Definition enter_scope (t : tid) (data : ref) (oldenv : Environment) (s : state) : state :=
  with_context (<[t := Env data (Some oldenv)]> (context_local s)) s.

Definition exit_scope (t : tid) (oldenv : Environment) (s : state) : state :=
  with_context (<[t := oldenv]> (context_local s)) s.

(** ** The objects of the tests *)

Definition main_thread : nat := 0%nat.
Definition a : positive := 10%positive.
Definition b : positive := 11%positive.

(** The state after [p1 = Parameter(42)] at module level. *)
Definition p1 : parameter := {| self_id := 1%positive; _converter := identity_converter |}.
Definition p2 : parameter := {| self_id := 2%positive; _converter := py_int |}.

(** [p1 = Parameter(42); p2 = Parameter(42, int)] run by the importing
    thread on the state the import leaves. *)
Definition tests_setup : M (parameter * parameter) :=
  x <~ Parameter_new (VInt 42) identity_converter ;;
  y <~ Parameter_new (VInt 42) py_int ;;
  ret (x, y).

Definition tests_state : state := snd (tests_setup main_thread (module_state main_thread)).

(** The dictionary display [{b: 1}] evaluated on that state: its
    reference and the state that holds it. *)
Definition other_dict : positive :=
  match fst (new_dict {[ b := VInt 1 ]} main_thread tests_state) with
  | Normal r => r
  | _ => 1%positive
  end.

Definition other_dict_state : state :=
  snd (new_dict {[ b := VInt 1 ]} main_thread tests_state).

(** The state inside [with p2.parameterize(7):], where the head is the
    scope frame on top of the root. *)
Definition scope_frame : Environment := Env 2%positive (Some (Env 1%positive None)).

Definition scope_state : state :=
  enter_scope main_thread 2%positive (Env 1%positive None)
    (snd (new_dict {[ 2%positive := VInt 7 ]} main_thread tests_state)).

(** [with self.assertRaises(...): body] of the test harness: the exception
    the block raised, if it raised one. *)
Definition assertRaises {A} (body : M A) : M (option exn) :=
  fun t s =>
    match body t s with
    | (Raised e, s') => (Normal (Some e), s')
    | (Normal _, s') => (Normal None, s')
    | (Returned v, s') => (Returned v, s')
    end.

(** [tests.py], each test as a computation that returns what the test
    observes, in the order of its assertions. *)
Definition test_set_get_del : M (option exn * value * option exn) :=
  e1 <~ assertRaises (EnvironmentProxy_getitem a) ;;
  EnvironmentProxy_setitem a (VInt 42) ;;;
  x <~ EnvironmentProxy_getitem a ;;
  EnvironmentProxy_delitem a ;;;
  e2 <~ assertRaises (EnvironmentProxy_getitem a) ;;
  ret (e1, x, e2).

Definition test_create : M (option exn * (value * value) * option exn) :=
  e1 <~ assertRaises (EnvironmentProxy_getitem a) ;;
  xy <~ create_scope {[ a := VInt 42 ]}
          (x <~ EnvironmentProxy_getitem a ;;
           EnvironmentProxy_setitem a (VInt 43) ;;;
           y <~ EnvironmentProxy_getitem a ;;
           ret (x, y)) ;;
  e2 <~ assertRaises (EnvironmentProxy_getitem a) ;;
  ret (e1, xy, e2).

Definition test_create_set : M (option exn * value * option exn) :=
  e1 <~ assertRaises (EnvironmentProxy_getitem a) ;;
  create_scope {[ b := VInt 42 ]} (EnvironmentProxy_setitem a (VInt 43)) ;;;
  x <~ EnvironmentProxy_getitem a ;;
  e2 <~ assertRaises (EnvironmentProxy_getitem b) ;;
  EnvironmentProxy_delitem a ;;;
  ret (e1, x, e2).

Definition test_get_set : M (value * value * value) :=
  x <~ Parameter_get p1 ;;
  Parameter_set p1 (VInt 50) ;;;
  y <~ Parameter_get p1 ;;
  z <~ Parameter_get p2 ;;
  Parameter_set p1 (VInt 42) ;;;
  ret (x, y, z).

Definition test_get_set_sugar : M (option exn * value * value * value) :=
  e <~ assertRaises (Parameter_call p1 [VInt 1; VInt 2]) ;;
  x <~ Parameter_call p1 [] ;;
  Parameter_call p1 [VInt 50] ;;;
  y <~ Parameter_call p1 [] ;;
  z <~ Parameter_call p2 [] ;;
  Parameter_call p1 [VInt 42] ;;;
  ret (e, x, y, z).

Definition test_converter : M (value * value * value * value) :=
  x <~ Parameter_get p1 ;;
  y <~ Parameter_get p2 ;;
  Parameter_set p1 (VStr "42") ;;;
  Parameter_set p2 (VStr "42") ;;;
  x' <~ Parameter_get p1 ;;
  y' <~ Parameter_get p2 ;;
  Parameter_set p1 (VInt 42) ;;;
  ret (x, y, x', y').

Definition test_parameterize : M (value * (value * value) * value) :=
  x <~ Parameter_get p1 ;;
  yz <~ Parameter_parameterize p1 (VInt 50)
          (y <~ Parameter_get p1 ;;
           Parameter_set p1 (VInt 51) ;;;
           z <~ Parameter_get p1 ;;
           ret (y, z)) ;;
  x' <~ Parameter_get p1 ;;
  ret (x, yz, x').

(** A block that deletes the binding the scope made for [p1] and then
    sets [p1]. *)
Definition delete_then_set : M value :=
  EnvironmentProxy_delitem (self_id p1) ;;; Parameter_set p1 (VInt 51).

(** ** Iteration and length (the rest of class [Environment]) *)

(** [for k in d]: the keys of a dictionary, each once.  The order in which
    a dictionary yields its keys is not fixed by the program; the order of
    the finite map stands for it, and nothing below depends on it. *)
Definition dict_keys (d : ref) : M (list positive) :=
  fun _ s => (Normal ((map_to_list (dict_of (heap s) d)).*1), s).

(** [for k in parent_keys: if k not in self._data: yield k] *)
Fixpoint keep_unowned (data : ref) (ks : list positive) : M (list positive) :=
  match ks with
  | [] => ret []
  | k :: ks' =>
      b <~ dict_contains data k ;;
      rest <~ keep_unowned data ks' ;;
      ret (if b then rest else k :: rest)
  end.

(** [Environment.__iter__], run to exhaustion: the keys it yields, in
    order.  The generator is consumed without other code running in
    between, as [__len__] consumes it. *)
Fixpoint Environment_iter (self : Environment) : M (list positive) :=
  match self with
  | Env data parent =>
      own <~ dict_keys data ;;
      match parent with
      | Some p =>
          ks <~ Environment_iter p ;;
          rest <~ keep_unowned data ks ;;
          ret (own ++ rest)%list
      | None => ret own
      end
  end.

(** [Environment.__len__]: [len(list(iter(self)))] *)
Definition Environment_len (self : Environment) : M nat :=
  ks <~ Environment_iter self ;; ret (length ks).

(** [EnvironmentProxy.__iter__] *)
Definition EnvironmentProxy_iter : M (list positive) :=
  e <~ get_dynamic_environment ;; Environment_iter e.

(** [EnvironmentProxy.__len__] *)
Definition EnvironmentProxy_len : M nat :=
  e <~ get_dynamic_environment ;; Environment_len e.

(** The keys a chain shows: those of any of its dictionaries. *)
Fixpoint visible_keys (e : Environment)
    (h : gmap positive (gmap positive value)) : gset positive :=
  match e with
  | Env d None => dom (dict_of h d)
  | Env d (Some p) => dom (dict_of h d) ∪ visible_keys p h
  end.

(** The keys [__iter__] yields, computed on the heap. *)
Fixpoint iter_keys (e : Environment)
    (h : gmap positive (gmap positive value)) : list positive :=
  match e with
  | Env d None => (map_to_list (dict_of h d)).*1
  | Env d (Some p) =>
      ((map_to_list (dict_of h d)).*1
       ++ filter (λ k, dict_of h d !! k = None) (iter_keys p h))%list
  end.

(** ** Replacing the context-local object *)

(** [set_context_locals(ctx)].  The object [ctx] is given by the value its
    attribute [dynamic_environment] has in each execution context.  The
    function copies the calling context's environment into [ctx] and makes
    [ctx] the object every later access reads. *)
Definition set_context_locals (ctx : gmap nat Environment) : M unit :=
  e <~ get_dynamic_environment ;;
  fun t s => (Normal tt, with_context (<[t := e]> ctx) s).

(** ** Basic facts *)

Lemma dict_of_insert_eq h r (m : gmap positive value) : dict_of (<[r := m]> h) r = m.
Proof. unfold dict_of. by rewrite lookup_insert_eq. Qed.

Lemma dict_of_insert_ne h r r' (m : gmap positive value) :
  r ≠ r' → dict_of (<[r := m]> h) r' = dict_of h r'.
Proof. intros Hne. unfold dict_of. by rewrite lookup_insert_ne. Qed.

Lemma heap_write_lookup_key h r r' k v :
  dict_of (heap_write r k v h) r' !! k = if decide (r = r') then Some v else dict_of h r' !! k.
Proof.
  unfold heap_write. case_decide as Hr.
  - subst. rewrite dict_of_insert_eq. apply lookup_insert_eq.
  - by rewrite dict_of_insert_ne.
Qed.

Lemma heap_write_lookup_other h r r' k k' v :
  k ≠ k' → dict_of (heap_write r k v h) r' !! k' = dict_of h r' !! k'.
Proof.
  intros Hk. unfold heap_write. destruct (decide (r = r')) as [->|Hr].
  - rewrite dict_of_insert_eq. by rewrite lookup_insert_ne.
  - by rewrite dict_of_insert_ne.
Qed.

Lemma heap_remove_lookup_key h r r' k :
  dict_of (heap_remove r k h) r' !! k = if decide (r = r') then None else dict_of h r' !! k.
Proof.
  unfold heap_remove. case_decide as Hr.
  - subst. rewrite dict_of_insert_eq. apply lookup_delete_eq.
  - by rewrite dict_of_insert_ne.
Qed.

Lemma heap_remove_lookup_other h r r' k k' :
  k ≠ k' → dict_of (heap_remove r k h) r' !! k' = dict_of h r' !! k'.
Proof.
  intros Hk. unfold heap_remove. destruct (decide (r = r')) as [->|Hr].
  - rewrite dict_of_insert_eq. by rewrite lookup_delete_ne.
  - by rewrite dict_of_insert_ne.
Qed.

Lemma env_refs_head e : _data e ∈ env_refs e.
Proof. destruct e as [d [p|]]; simpl; apply elem_of_cons; by left. Qed.

Lemma chain_lookup_None e k h : chain_lookup e k h = None ↔ unbound_in_chain e k h.
Proof.
  unfold unbound_in_chain.
  induction e as [d|d p IH] using Environment_chain_ind; simpl.
  - destruct (dict_of h d !! k) eqn:Hd; split; try done.
    + intros H. rewrite H in Hd; [done|apply elem_of_cons; by left].
    + intros _ r Hr. by apply list_elem_of_singleton in Hr as ->.
  - destruct (dict_of h d !! k) eqn:Hd; split; try done.
    + intros H. rewrite H in Hd; [done|apply elem_of_cons; by left].
    + intros Hp r Hr. apply elem_of_cons in Hr as [->|Hr]; [done|].
      by apply IH.
    + intros H. apply IH. intros r Hr. apply H. apply elem_of_cons. by right.
Qed.

(** The methods, computed on the heap. *)
Lemma Environment_getitem_spec e k t s :
  Environment_getitem e k t s =
    match chain_lookup e k (heap s) with
    | Some v => (Normal v, s)
    | None => (Raised (KeyError k), s)
    end.
Proof.
  induction e as [d|d p IH] using Environment_chain_ind; simpl;
    unfold bind, dict_contains, dict_getitem, raise;
    destruct (dict_of (heap s) d !! k) eqn:Hd; simpl; rewrite ?Hd; done.
Qed.

Lemma Environment_setitem_spec e k v t s :
  Environment_setitem e k v t s =
    (Normal tt, with_heap (heap_write (first_owner_or_root e k (heap s)) k v (heap s)) s).
Proof.
  induction e as [d|d p IH] using Environment_chain_ind; simpl;
    unfold bind, dict_contains, dict_setitem.
  - by rewrite orb_true_r.
  - rewrite orb_false_r. case_decide as Hd.
    + by rewrite bool_decide_eq_true_2.
    + by rewrite bool_decide_eq_false_2.
Qed.

Lemma Environment_delitem_spec e k t s :
  Environment_delitem e k t s =
    match chain_lookup e k (heap s) with
    | Some _ => (Normal tt, with_heap (heap_remove (first_owner_or_root e k (heap s)) k (heap s)) s)
    | None => (Raised (KeyError k), s)
    end.
Proof.
  induction e as [d|d p IH] using Environment_chain_ind; simpl;
    unfold bind, dict_contains, dict_delitem, raise.
  - destruct (dict_of (heap s) d !! k) eqn:Hd; simpl; by rewrite ?Hd.
  - destruct (dict_of (heap s) d !! k) eqn:Hd; simpl.
    + by rewrite Hd.
    + exact IH.
Qed.

(** A write is read back through the same chain. *)
Lemma chain_lookup_write e k v h :
  chain_lookup e k (heap_write (first_owner_or_root e k h) k v h) = Some v.
Proof.
  induction e as [d|d p IH] using Environment_chain_ind; simpl.
  - rewrite heap_write_lookup_key. by rewrite decide_True.
  - case_decide as Hd.
    + rewrite heap_write_lookup_key. by rewrite decide_True.
    + rewrite heap_write_lookup_key. case_decide; [done|].
      destruct (dict_of h d !! k) eqn:Hk; [by destruct Hd|]. apply IH.
Qed.

(** A write under one key changes no binding of another key. *)
Lemma chain_lookup_write_other e k k' v r h :
  k ≠ k' → chain_lookup e k' (heap_write r k v h) = chain_lookup e k' h.
Proof.
  intros Hk.
  induction e as [d|d p IH] using Environment_chain_ind; simpl;
    rewrite heap_write_lookup_other by done; [done|by rewrite IH].
Qed.

Lemma first_owner_binds e k v h :
  chain_lookup e k h = Some v → dict_of h (first_owner_or_root e k h) !! k = Some v.
Proof.
  induction e as [d|d p IHp] using Environment_chain_ind; simpl.
  - by destruct (dict_of h d !! k).
  - destruct (dict_of h d !! k) eqn:Hd.
    + intros [= ->]. by rewrite decide_True.
    + intros Hp. rewrite decide_False by (by intros [? ?]). by apply IHp.
Qed.

Lemma first_owner_in_chain e k h : first_owner_or_root e k h ∈ env_refs e.
Proof.
  induction e as [d|d p IHp] using Environment_chain_ind; simpl.
  - apply elem_of_cons. by left.
  - case_decide; apply elem_of_cons; [by left|by right].
Qed.

(** A write does not move the frame that owns the key. *)
Lemma first_owner_after_write e k v h :
  first_owner_or_root e k (heap_write (first_owner_or_root e k h) k v h)
  = first_owner_or_root e k h.
Proof.
  induction e as [d|d p IHp] using Environment_chain_ind; simpl; [done|].
  destruct (decide (is_Some (dict_of h d !! k))) as [Hd|Hd].
  - rewrite heap_write_lookup_key.
    destruct (decide (d = d)) as [_|Hdd]; [|done]. by rewrite decide_True.
  - rewrite heap_write_lookup_key.
    destruct (decide (first_owner_or_root p k h = d)) as [Heq|Hne].
    + by rewrite decide_True.
    + rewrite decide_False by done. apply IHp.
Qed.

Lemma first_owner_unbound e k h :
  unbound_in_chain e k h → first_owner_or_root e k h = _data (root_frame e).
Proof.
  induction e as [d|d p IHp] using Environment_chain_ind; simpl; [done|].
  intros Hun. rewrite decide_False.
  - apply IHp. intros r Hr. apply Hun. apply elem_of_cons. by right.
  - rewrite (Hun d) by (apply elem_of_cons; by left). by intros [? ?].
Qed.

(** The facade's methods in a thread whose slot holds the chain [e]. *)
Lemma EnvironmentProxy_getitem_spec e k t s :
  context_local s !! t = Some e →
  EnvironmentProxy_getitem k t s =
    match chain_lookup e k (heap s) with
    | Some v => (Normal v, s)
    | None => (Raised (KeyError k), s)
    end.
Proof.
  intros He. unfold EnvironmentProxy_getitem, bind, get_dynamic_environment.
  rewrite He. apply Environment_getitem_spec.
Qed.

Lemma EnvironmentProxy_setitem_spec e k v t s :
  context_local s !! t = Some e →
  EnvironmentProxy_setitem k v t s =
    (Normal tt, with_heap (heap_write (first_owner_or_root e k (heap s)) k v (heap s)) s).
Proof.
  intros He. unfold EnvironmentProxy_setitem, bind, get_dynamic_environment.
  rewrite He. apply Environment_setitem_spec.
Qed.

Lemma EnvironmentProxy_delitem_spec e k t s :
  context_local s !! t = Some e →
  EnvironmentProxy_delitem k t s =
    match chain_lookup e k (heap s) with
    | Some _ => (Normal tt, with_heap (heap_remove (first_owner_or_root e k (heap s)) k (heap s)) s)
    | None => (Raised (KeyError k), s)
    end.
Proof.
  intros He. unfold EnvironmentProxy_delitem, bind, get_dynamic_environment.
  rewrite He. apply Environment_delitem_spec.
Qed.

(** The scoped acquisition, whatever the block does: the block runs on
    the state with the new frame as head, its outcome is the outcome of
    the [with] statement, and the head it leaves is the one saved at
    entry. *)
Lemma EnvironmentProxy_create_spec {A} (data : positive) (body : M A) t s oldenv :
  context_local s !! t = Some oldenv →
  EnvironmentProxy_create data body t s =
    (fst (body t (enter_scope t data oldenv s)),
     exit_scope t oldenv (snd (body t (enter_scope t data oldenv s)))).
Proof.
  intros He.
  unfold EnvironmentProxy_create, bind, get_dynamic_environment,
    set_dynamic_environment, try_finally.
  rewrite He. fold (enter_scope t data oldenv s).
  by destruct (body t (enter_scope t data oldenv s)) as [o s1].
Qed.

Lemma exit_scope_head t e s : context_local (exit_scope t e s) !! t = Some e.
Proof. unfold exit_scope. simpl. apply lookup_insert_eq. Qed.

Lemma enter_scope_head t d e s :
  context_local (enter_scope t d e s) !! t = Some (Env d (Some e)).
Proof. unfold enter_scope. simpl. apply lookup_insert_eq. Qed.

Lemma tests_state_head : context_local tests_state !! main_thread = Some (Env 1%positive None).
Proof. reflexivity. Qed.

(** ** Reading: [Environment.__getitem__] *)

(** C4.  [get(key)] returns the value of the frame's own dictionary when
    the key is there, otherwise asks the parent when there is one, and
    otherwise raises [KeyError]; it raises [KeyError] exactly when no
    dictionary of the chain holds the key, and so does the facade for a key
    never bound in the current chain: no default is returned. *)
Theorem getitem_own_then_parent_else_KeyError
    (self : Environment) (k : positive) (t : nat) (s : state) :
  (∀ v, dict_of (heap s) (_data self) !! k = Some v →
        Environment_getitem self k t s = (Normal v, s)) ∧
  (∀ p, dict_of (heap s) (_data self) !! k = None → _parent self = Some p →
        Environment_getitem self k t s = Environment_getitem p k t s) ∧
  (dict_of (heap s) (_data self) !! k = None → _parent self = None →
        Environment_getitem self k t s = (Raised (KeyError k), s)) ∧
  (Environment_getitem self k t s = (Raised (KeyError k), s) ↔
        unbound_in_chain self k (heap s)) ∧
  (context_local s !! t = Some self → unbound_in_chain self k (heap s) →
        EnvironmentProxy_getitem k t s = (Raised (KeyError k), s)).
Proof.
  split_and!.
  - intros v Hv. destruct self as [d parent]; simpl in *.
    unfold bind, dict_contains, dict_getitem. rewrite Hv. simpl. by rewrite Hv.
  - intros p Hk Hp. destruct self as [d parent]; simpl in *; subst.
    unfold bind, dict_contains. rewrite Hk. by simpl.
  - intros Hk Hp. destruct self as [d parent]; simpl in *; subst.
    unfold bind, dict_contains. rewrite Hk. by simpl.
  - rewrite Environment_getitem_spec, <- chain_lookup_None.
    destruct (chain_lookup self k (heap s)); split; congruence.
  - intros Hhead Hun. rewrite (EnvironmentProxy_getitem_spec self) by done.
    apply chain_lookup_None in Hun. by rewrite Hun.
Qed.

Lemma getitem_own_then_parent_else_KeyError_witness :
  EnvironmentProxy_getitem a main_thread tests_state = (Raised (KeyError a), tests_state).
Proof.
  apply (getitem_own_then_parent_else_KeyError (Env 1%positive None) a main_thread tests_state).
  - reflexivity.
  - intros r Hr. apply list_elem_of_singleton in Hr. subst r. reflexivity.
Defined.

(** ** Writing: [Environment.__setitem__] *)

(** C1.  [set(key, value)] writes into the frame's own dictionary when the
    key is there or the frame is a root, and otherwise hands the write to
    the parent, so the write lands on the first frame that owns the key
    (the one whose binding the chain shows), or on the root when no frame
    owns it.  A write made inside a scope that does not bind the key, while
    the chain outside binds it, is read back after the scope is left. *)
Theorem setitem_writes_to_owner_or_root
    (self : Environment) (k : positive) (v : value) (t : nat) (s : state) :
  (is_Some (dict_of (heap s) (_data self) !! k) ∨ _parent self = None →
     Environment_setitem self k v t s = dict_setitem (_data self) k v t s) ∧
  (∀ p, dict_of (heap s) (_data self) !! k = None → _parent self = Some p →
     Environment_setitem self k v t s = Environment_setitem p k v t s) ∧
  Environment_setitem self k v t s =
     dict_setitem (first_owner_or_root self k (heap s)) k v t s ∧
  (∀ w, chain_lookup self k (heap s) = Some w →
     dict_of (heap s) (first_owner_or_root self k (heap s)) !! k = Some w) ∧
  (unbound_in_chain self k (heap s) →
     first_owner_or_root self k (heap s) = _data (root_frame self)) ∧
  (∀ data, context_local s !! t = Some self →
     dict_of (heap s) data !! k = None →
     is_Some (chain_lookup self k (heap s)) →
     ∃ s1, EnvironmentProxy_create data (EnvironmentProxy_setitem k v) t s = (Normal tt, s1) ∧
           context_local s1 !! t = Some self ∧
           EnvironmentProxy_getitem k t s1 = (Normal v, s1)).
Proof.
  split_and!.
  - intros Hown. destruct self as [d parent]; simpl in *.
    unfold bind, dict_contains. destruct Hown as [Hown| ->].
    + by rewrite bool_decide_eq_true_2.
    + by rewrite orb_true_r.
  - intros p Hk Hp. destruct self as [d parent]; simpl in *; subst.
    unfold bind, dict_contains. rewrite Hk. by simpl.
  - apply Environment_setitem_spec.
  - intros w. apply first_owner_binds.
  - apply first_owner_unbound.
  - intros data Hhead Hdata _.
    rewrite (EnvironmentProxy_create_spec data _ t s self) by done.
    rewrite (EnvironmentProxy_setitem_spec (Env data (Some self)))
      by apply enter_scope_head.
    simpl. rewrite decide_False by (rewrite Hdata; by intros [? ?]).
    eexists. split; [reflexivity|]. split; [apply exit_scope_head|].
    rewrite (EnvironmentProxy_getitem_spec self) by apply exit_scope_head.
    simpl. by rewrite chain_lookup_write.
Qed.

Lemma setitem_writes_to_owner_or_root_witness :
  ∃ s1, EnvironmentProxy_create other_dict
          (EnvironmentProxy_setitem 1%positive (VInt 99)) main_thread other_dict_state
          = (Normal tt, s1) ∧
        context_local s1 !! main_thread = Some (Env 1%positive None) ∧
        EnvironmentProxy_getitem 1%positive main_thread s1 = (Normal (VInt 99), s1).
Proof.
  apply (setitem_writes_to_owner_or_root (Env 1%positive None) 1%positive (VInt 99)
           main_thread other_dict_state).
  - reflexivity.
  - reflexivity.
  - by exists (VInt 42).
Defined.

(** ** Deleting: [Environment.__delitem__] *)

(** C5.  [delete(key)] removes the key from the frame's own dictionary when
    it is there, otherwise hands the removal to the parent, and raises
    [KeyError] exactly when no dictionary of the chain holds the key; on a
    bound key it removes from the dictionary a write would land on.  After
    [set(k, v)], [delete(k)] succeeds and [get(k)] then raises [KeyError],
    provided no frame other than the one written binds [k]. *)
Theorem delitem_removes_from_owner_else_KeyError
    (self : Environment) (k : positive) (v : value) (t : nat) (s : state) :
  (is_Some (dict_of (heap s) (_data self) !! k) →
     Environment_delitem self k t s = dict_delitem (_data self) k t s) ∧
  (∀ p, dict_of (heap s) (_data self) !! k = None → _parent self = Some p →
     Environment_delitem self k t s = Environment_delitem p k t s) ∧
  (Environment_delitem self k t s = (Raised (KeyError k), s) ↔
     unbound_in_chain self k (heap s)) ∧
  (¬ unbound_in_chain self k (heap s) →
     Environment_delitem self k t s =
       (Normal tt, with_heap (heap_remove (first_owner_or_root self k (heap s)) k (heap s)) s)) ∧
  ((∀ r, r ∈ env_refs self → r ≠ first_owner_or_root self k (heap s) →
         dict_of (heap s) r !! k = None) →
     ∃ s1 s2, Environment_setitem self k v t s = (Normal tt, s1) ∧
              Environment_delitem self k t s1 = (Normal tt, s2) ∧
              Environment_getitem self k t s2 = (Raised (KeyError k), s2)).
Proof.
  split_and!.
  - intros [w Hw]. destruct self as [d parent]; simpl in *.
    unfold bind, dict_contains. rewrite Hw. by simpl.
  - intros p Hk Hp. destruct self as [d parent]; simpl in *; subst.
    unfold bind, dict_contains. rewrite Hk. by simpl.
  - rewrite Environment_delitem_spec, <- chain_lookup_None.
    destruct (chain_lookup self k (heap s)); split; congruence.
  - intros Hb. rewrite Environment_delitem_spec.
    destruct (chain_lookup self k (heap s)) eqn:Hl; [done|].
    by apply chain_lookup_None in Hl.
  - intros Hothers. rewrite Environment_setitem_spec.
    set (r := first_owner_or_root self k (heap s)) in *.
    eexists. eexists. split; [reflexivity|].
    rewrite Environment_delitem_spec. simpl.
    unfold r at 1 2. rewrite chain_lookup_write.
    rewrite first_owner_after_write. fold r.
    split; [reflexivity|].
    rewrite Environment_getitem_spec. simpl.
    assert (chain_lookup self k (heap_remove r k (heap_write r k v (heap s))) = None) as ->; [|done].
    apply chain_lookup_None. intros r' Hr'.
    rewrite heap_remove_lookup_key. case_decide as Hrr; [done|].
    rewrite heap_write_lookup_key, decide_False by done.
    apply Hothers; [done|congruence].
Qed.

Lemma delitem_removes_from_owner_else_KeyError_witness :
  ∃ s1 s2,
    Environment_setitem (Env 1%positive None) a (VInt 42) main_thread tests_state = (Normal tt, s1) ∧
    Environment_delitem (Env 1%positive None) a main_thread s1 = (Normal tt, s2) ∧
    Environment_getitem (Env 1%positive None) a main_thread s2 = (Raised (KeyError a), s2).
Proof.
  apply (delitem_removes_from_owner_else_KeyError (Env 1%positive None) a (VInt 42)
           main_thread tests_state).
  intros r Hr Hne. apply list_elem_of_singleton in Hr. subst r. by destruct Hne.
Defined.

(** ** Parameters *)

Lemma call_converter_ok conv v w t s :
  conv v = inr w → call_converter conv v t s = (Normal w, s).
Proof. intros H. unfold call_converter. by rewrite H. Qed.

Lemma call_converter_raises conv v e t s :
  conv v = inl e → call_converter conv v t s = (Raised e, s).
Proof. intros H. unfold call_converter. by rewrite H. Qed.

Lemma Parameter_set_spec (self : parameter) v w t s h :
  context_local s !! t = Some h → _converter self v = inr w →
  Parameter_set self v t s =
    (Normal VNone,
     with_heap (heap_write (first_owner_or_root h (self_id self) (heap s))
                  (self_id self) w (heap s)) s).
Proof.
  intros Hh Hc. unfold Parameter_set, bind.
  rewrite (call_converter_ok _ _ w) by done.
  by rewrite (EnvironmentProxy_setitem_spec h) by done.
Qed.

Lemma Parameter_get_after_write (self : parameter) w t s h :
  context_local s !! t = Some h →
  let s' := with_heap (heap_write (first_owner_or_root h (self_id self) (heap s))
                         (self_id self) w (heap s)) s in
  Parameter_get self t s' = (Normal w, s').
Proof.
  intros Hh s'. unfold Parameter_get.
  rewrite (EnvironmentProxy_getitem_spec h) by done.
  subst s'. simpl. by rewrite chain_lookup_write.
Qed.

Lemma Parameter_new_spec default conv w t s h :
  context_local s !! t = Some h → conv default = inr w →
  let self := fresh (live s) in
  Parameter_new default conv t s =
    (Normal {| self_id := self; _converter := conv |},
     with_heap (heap_write (first_owner_or_root h self (heap s)) self w (heap s))
       (with_live ({[self]} ∪ live s) s)).
Proof.
  intros Hh Hc self. unfold Parameter_new, bind, new_object, Parameter_init, bind.
  rewrite (call_converter_ok _ _ w) by done.
  by rewrite (EnvironmentProxy_setitem_spec h) by done.
Qed.

Lemma Parameter_new_then_get default conv w t s h :
  context_local s !! t = Some h → conv default = inr w →
  ∃ p s', Parameter_new default conv t s = (Normal p, s') ∧
          _converter p = conv ∧
          context_local s' = context_local s ∧
          Parameter_get p t s' = (Normal w, s').
Proof.
  intros Hh Hc. rewrite (Parameter_new_spec default conv w t s h Hh Hc).
  eexists. eexists. split; [reflexivity|]. split; [done|]. split; [done|].
  exact (Parameter_get_after_write
           {| self_id := fresh (live s); _converter := conv |} w t
           (with_live ({[fresh (live s)]} ∪ live s) s) h Hh).
Qed.



(** C10.  [Parameter.set] never evaluates to anything but [None], and so
    does the one-argument call; when the converter accepts the value in a
    thread that has an environment, both complete and evaluate to [None]. *)
Theorem set_evaluates_to_None (self : parameter) (v : value) (t : nat) (s : state) :
  (∀ x s', Parameter_set self v t s = (Normal x, s') → x = VNone) ∧
  (∀ x s', Parameter_call self [v] t s = (Normal x, s') → x = VNone) ∧
  (∀ x s', Parameter_set self v t s ≠ (Returned x, s')) ∧
  (∀ h w, context_local s !! t = Some h → _converter self v = inr w →
     ∃ s', Parameter_set self v t s = (Normal VNone, s') ∧
           Parameter_call self [v] t s = (Normal VNone, s')).
Proof.
  assert (∀ x s', Parameter_set self v t s = (Normal x, s') → x = VNone) as Hset.
  { intros x s'. unfold Parameter_set, bind, call_converter, EnvironmentProxy_setitem,
      bind, get_dynamic_environment, raise, ret.
    destruct (_converter self v) as [e|w]; [done|].
    destruct (context_local s !! t) as [h|]; [|done].
    rewrite Environment_setitem_spec. congruence. }
  split_and!; [done|done| |].
  - intros x s'. unfold Parameter_set, bind, call_converter, EnvironmentProxy_setitem,
      bind, get_dynamic_environment, raise, ret.
    destruct (_converter self v) as [e|w]; [done|].
    destruct (context_local s !! t) as [h|]; [|done].
    by rewrite Environment_setitem_spec.
  - intros h w Hh Hc. eexists. simpl.
    by rewrite (Parameter_set_spec self v w t s h).
Qed.

Lemma set_evaluates_to_None_witness :
  ∃ s', Parameter_set p1 (VInt 50) main_thread tests_state = (Normal VNone, s') ∧
        Parameter_call p1 [VInt 50] main_thread tests_state = (Normal VNone, s').
Proof.
  destruct (set_evaluates_to_None p1 (VInt 50) main_thread tests_state)
    as (_ & _ & _ & Hdone).
  apply (Hdone (Env 1%positive None) (VInt 50)); reflexivity.
Defined.

(** C6.  The converter is applied at construction and at every [set]: the
    value bound, and read back by [get], is [converter(value)]; a converter
    that raises leaves the state as it was.  With [int] as converter
    [set('42')] leaves [get() == 42]; with the default converter it leaves
    the string ['42'], which is not [42]. *)
Theorem converter_applied_on_every_set
    (conv : value → exn + value) (v : value) (t : nat) (s : state) :
  (∀ h w, context_local s !! t = Some h → conv v = inr w →
     ∃ p s', Parameter_new v conv t s = (Normal p, s') ∧ _converter p = conv ∧
             Parameter_get p t s' = (Normal w, s')) ∧
  (∀ self h w, _converter self = conv → context_local s !! t = Some h → conv v = inr w →
     ∃ s', Parameter_set self v t s = (Normal VNone, s') ∧
           heap s' = heap_write (first_owner_or_root h (self_id self) (heap s))
                       (self_id self) w (heap s) ∧
           Parameter_get self t s' = (Normal w, s')) ∧
  (∀ self e, _converter self = conv → conv v = inl e →
     Parameter_set self v t s = (Raised e, s) ∧
     Parameter_new v conv t s = (Raised e, with_live ({[fresh (live s)]} ∪ live s) s)) ∧
  fst ((Parameter_set p2 (VStr "42") ;;; Parameter_get p2) main_thread tests_state)
    = Normal (VInt 42) ∧
  fst ((Parameter_set p1 (VStr "42") ;;; Parameter_get p1) main_thread tests_state)
    = Normal (VStr "42") ∧
  VStr "42" ≠ VInt 42.
Proof.
  split_and!.
  - intros h w Hh Hc.
    destruct (Parameter_new_then_get v conv w t s h Hh Hc)
      as (p & s' & Hnew & Hconv & _ & Hget).
    by exists p, s'.
  - intros self h w <- Hh Hc. eexists.
    rewrite (Parameter_set_spec self v w t s h) by done.
    split; [reflexivity|]. split; [reflexivity|].
    by apply (Parameter_get_after_write self w t s h).
  - intros self e <- Hc. split.
    + unfold Parameter_set, bind. by rewrite (call_converter_raises _ _ e).
    + unfold Parameter_new, bind, new_object, Parameter_init, bind.
      by rewrite (call_converter_raises _ _ e).
  - reflexivity.
  - reflexivity.
  - done.
Qed.

Lemma converter_applied_on_every_set_witness :
  ∃ s', Parameter_set p2 (VStr "42") main_thread tests_state = (Normal VNone, s') ∧
        heap s' = heap_write (first_owner_or_root (Env 1%positive None) 2%positive (heap tests_state))
                    2%positive (VInt 42) (heap tests_state) ∧
        Parameter_get p2 main_thread s' = (Normal (VInt 42), s').
Proof.
  destruct (converter_applied_on_every_set py_int (VStr "42") main_thread tests_state)
    as (_ & Hset & _).
  apply (Hset p2 (Env 1%positive None) (VInt 42)); reflexivity.
Defined.

(** ** Scopes *)

Lemma fresh_dict_not_in_chain e s :
  chain_allocated e s → fresh (dom (heap s)) ∉ env_refs e.
Proof. intros Ha Hin. apply Ha in Hin. by apply is_fresh in Hin. Qed.

Lemma chain_lookup_ext e k h1 h2 :
  (∀ r, r ∈ env_refs e → dict_of h1 r !! k = dict_of h2 r !! k) →
  chain_lookup e k h1 = chain_lookup e k h2.
Proof.
  induction e as [d|d p IHp] using Environment_chain_ind; simpl; intros Hsame.
  - rewrite (Hsame d) by (apply elem_of_cons; by left). done.
  - rewrite (Hsame d) by (apply elem_of_cons; by left).
    rewrite IHp; [done|]. intros r Hr. apply Hsame. apply elem_of_cons. by right.
Qed.

Lemma chain_lookup_own d parent k h v :
  dict_of h d !! k = Some v → chain_lookup (Env d parent) k h = Some v.
Proof. intros Hd. simpl. by rewrite Hd. Qed.

Lemma chain_lookup_skip d p k h :
  dict_of h d !! k = None → chain_lookup (Env d (Some p)) k h = chain_lookup p k h.
Proof. intros Hd. simpl. by rewrite Hd. Qed.

Lemma first_owner_own d p k h :
  is_Some (dict_of h d !! k) → first_owner_or_root (Env d (Some p)) k h = d.
Proof. intros Hd. simpl. by rewrite decide_True. Qed.

Lemma first_owner_skip d p k h :
  dict_of h d !! k = None →
  first_owner_or_root (Env d (Some p)) k h = first_owner_or_root p k h.
Proof. intros Hd. simpl. rewrite decide_False; [done|]. rewrite Hd. by intros [? ?]. Qed.

(** C2.  A binding seeded by [createScope] stays in the scope: with no
    binding of [k] outside, inside [createScope({k: v1})] the key reads
    [v1], after [set(k, v2)] it reads [v2], and after the exit [get(k)]
    raises [KeyError] again. *)
Theorem scope_binding_does_not_leak
    (k : positive) (v1 v2 : value) (bindings : gmap positive value)
    (t : nat) (s : state) (h : Environment) :
  context_local s !! t = Some h →
  chain_allocated h s →
  EnvironmentProxy_getitem k t s = (Raised (KeyError k), s) →
  bindings !! k = Some v1 →
  ∃ s1,
    create_scope bindings
      (x <~ EnvironmentProxy_getitem k ;;
       EnvironmentProxy_setitem k v2 ;;;
       y <~ EnvironmentProxy_getitem k ;;
       ret (x, y)) t s = (Normal (v1, v2), s1) ∧
    context_local s1 !! t = Some h ∧
    EnvironmentProxy_getitem k t s1 = (Raised (KeyError k), s1).
Proof.
  intros Hh Halloc Hunbound Hk.
  rewrite (EnvironmentProxy_getitem_spec h) in Hunbound by done.
  destruct (chain_lookup h k (heap s)) eqn:Hl; [done|]. clear Hunbound.
  pose proof (fresh_dict_not_in_chain h s Halloc) as Hfresh.
  set (d := fresh (dom (heap s))) in *.
  set (body := (x <~ EnvironmentProxy_getitem k ;;
                EnvironmentProxy_setitem k v2 ;;;
                y <~ EnvironmentProxy_getitem k ;;
                ret (x, y))).
  unfold create_scope, bind, new_dict. fold d.
  set (s0 := with_heap (<[d := bindings]> (heap s)) s).
  rewrite (EnvironmentProxy_create_spec d _ t s0 h) by done.
  set (sin := enter_scope t d h s0).
  assert (context_local sin !! t = Some (Env d (Some h))) as Hin
    by apply enter_scope_head.
  assert (dict_of (heap sin) d !! k = Some v1) as Hd1.
  { simpl. by rewrite dict_of_insert_eq. }
  assert (body t sin = (Normal (v1, v2), with_heap (heap_write d k v2 (heap sin)) sin))
    as Hbody.
  { unfold body, bind.
    rewrite (EnvironmentProxy_getitem_spec (Env d (Some h))) by done.
    rewrite (chain_lookup_own _ _ _ _ v1) by done.
    rewrite (EnvironmentProxy_setitem_spec (Env d (Some h))) by done.
    rewrite first_owner_own by (by rewrite Hd1).
    rewrite (EnvironmentProxy_getitem_spec (Env d (Some h))) by done.
    rewrite (chain_lookup_own _ _ _ _ v2); [done|].
    simpl. by rewrite heap_write_lookup_key, decide_True. }
  rewrite Hbody. simpl fst. simpl snd.
  eexists. split; [reflexivity|]. split; [apply exit_scope_head|].
  rewrite (EnvironmentProxy_getitem_spec h) by apply exit_scope_head.
  simpl.
  rewrite (chain_lookup_ext h k _ (heap s)); [by rewrite Hl|].
  intros r Hr. assert (d ≠ r) as Hne by (intros ->; done).
  rewrite heap_write_lookup_key, decide_False by done.
  by rewrite dict_of_insert_ne.
Qed.

Lemma tests_state_allocated : chain_allocated (Env 1%positive None) tests_state.
Proof.
  intros r Hr. apply list_elem_of_singleton in Hr. subst r.
  apply elem_of_dom. by eexists.
Defined.

Lemma scope_binding_does_not_leak_witness :
  ∃ s1,
    create_scope {[ a := VInt 42 ]}
      (x <~ EnvironmentProxy_getitem a ;;
       EnvironmentProxy_setitem a (VInt 43) ;;;
       y <~ EnvironmentProxy_getitem a ;;
       ret (x, y)) main_thread tests_state = (Normal (VInt 42, VInt 43), s1) ∧
    context_local s1 !! main_thread = Some (Env 1%positive None) ∧
    EnvironmentProxy_getitem a main_thread s1 = (Raised (KeyError a), s1).
Proof.
  apply (scope_binding_does_not_leak a (VInt 42) (VInt 43) {[ a := VInt 42 ]}
           main_thread tests_state (Env 1%positive None)).
  - reflexivity.
  - exact tests_state_allocated.
  - reflexivity.
  - reflexivity.
Defined.

(** ** Construction *)

Lemma receiving_frame_data e k h :
  _data (receiving_frame e k h) = first_owner_or_root e k h.
Proof.
  induction e as [d|d p IHp] using Environment_chain_ind; simpl; [done|].
  by case_decide.
Qed.

Lemma root_frame_parent e : _parent (root_frame e) = None.
Proof. induction e as [d|d p IHp] using Environment_chain_ind; simpl; done. Qed.

Lemma receiving_frame_unbound e k h :
  unbound_in_chain e k h → receiving_frame e k h = root_frame e.
Proof.
  induction e as [d|d p IHp] using Environment_chain_ind; simpl; [done|].
  intros Hun. rewrite decide_False.
  - apply IHp. intros r Hr. apply Hun. apply elem_of_cons. by right.
  - rewrite (Hun d) by (apply elem_of_cons; by left). by intros [? ?].
Qed.

(** The identity of a new object is the key of no dictionary. *)
Lemma keys_live_elem s r k :
  keys_live s → is_Some (dict_of (heap s) r !! k) → k ∈ live s.
Proof.
  intros Hlive [x Hx]. unfold dict_of in Hx.
  destruct (heap s !! r) as [d|] eqn:Hr; simpl in Hx.
  - apply (Hlive r d Hr). apply elem_of_dom. by exists x.
  - by rewrite lookup_empty in Hx.
Qed.

Lemma fresh_object_unbound e s :
  keys_live s → unbound_in_chain e (fresh (live s)) (heap s).
Proof.
  intros Hlive r _. destruct (dict_of (heap s) r !! fresh (live s)) eqn:Hk; [|done].
  exfalso. apply (is_fresh (live s)). apply (keys_live_elem s r); [done|].
  by rewrite Hk.
Qed.

Lemma Parameter_new_identity default conv t s p s' :
  Parameter_new default conv t s = (Normal p, s') → self_id p = fresh (live s).
Proof.
  unfold Parameter_new, bind, new_object, Parameter_init, bind, call_converter,
    EnvironmentProxy_setitem, bind, get_dynamic_environment, raise, ret.
  destruct (conv default) as [e|w]; [done|]. simpl.
  destruct (context_local s !! t) as [h|]; [|done].
  rewrite Environment_setitem_spec. by intros [= <- _].
Qed.

(** C7, as the code has it.  Construction binds [converter(default)] under
    the identity of the new object through [__setitem__] of the current
    environment.  No frame owns the key of a new object, so the write is
    handed up the whole chain: the frame that receives the binding is the
    root frame of the current chain, also when the construction runs inside
    an open scope. *)
Theorem construction_binds_in_root
    (default : value) (conv : value → exn + value) (t : nat) (s : state)
    (h : Environment) (w : value) :
  keys_live s →
  context_local s !! t = Some h →
  conv default = inr w →
  ∃ p s', Parameter_new default conv t s = (Normal p, s') ∧
          (self_id p ∉ live s) ∧
          _converter p = conv ∧
          receiving_frame h (self_id p) (heap s) = root_frame h ∧
          heap s' = heap_write (_data (root_frame h)) (self_id p) w (heap s) ∧
          Parameter_get p t s' = (Normal w, s').
Proof.
  intros Hlive Hh Hc.
  pose proof (receiving_frame_unbound h _ _ (fresh_object_unbound h s Hlive)) as Hrecv.
  rewrite (Parameter_new_spec default conv w t s h Hh Hc).
  eexists. eexists. split; [reflexivity|]. simpl.
  split; [apply is_fresh|]. split; [done|]. split; [done|].
  split; [by rewrite <- Hrecv, receiving_frame_data|].
  exact (Parameter_get_after_write
           {| self_id := fresh (live s); _converter := conv |} w t
           (with_live ({[fresh (live s)]} ∪ live s) s) h Hh).
Qed.

(** The claim C7 as stated fails: in no state whose keys are live objects
    and no open scope does the binding of a newly constructed parameter go
    to a frame that has a parent. *)
Lemma construction_never_binds_in_scope_frame :
  ¬ ∃ (default : value) (conv : value → exn + value) (t : nat) (s : state)
      (h : Environment) (p : parameter) (s' : state),
      keys_live s ∧
      context_local s !! t = Some h ∧
      is_Some (_parent h) ∧
      Parameter_new default conv t s = (Normal p, s') ∧
      is_Some (_parent (receiving_frame h (self_id p) (heap s))).
Proof.
  intros (default & conv & t & s & h & p & s' & Hlive & Hh & _ & Hnew & Hrecv).
  rewrite (Parameter_new_identity _ _ _ _ _ _ Hnew) in Hrecv.
  rewrite (receiving_frame_unbound h _ _ (fresh_object_unbound h s Hlive)) in Hrecv.
  rewrite root_frame_parent in Hrecv. by destruct Hrecv.
Qed.

Lemma scope_state_keys_live : keys_live scope_state.
Proof. apply (bool_decide_unpack (keys_live scope_state)). vm_compute. exact I. Defined.

Lemma construction_binds_in_root_witness :
  ∃ p s', Parameter_new (VInt 42) identity_converter main_thread scope_state = (Normal p, s') ∧
          (self_id p ∉ live scope_state) ∧
          _converter p = identity_converter ∧
          receiving_frame scope_frame (self_id p) (heap scope_state) = root_frame scope_frame ∧
          heap s' = heap_write (_data (root_frame scope_frame)) (self_id p) (VInt 42)
                      (heap scope_state) ∧
          Parameter_get p main_thread s' = (Normal (VInt 42), s').
Proof.
  apply (construction_binds_in_root (VInt 42) identity_converter main_thread scope_state
           scope_frame (VInt 42)).
  - exact scope_state_keys_live.
  - reflexivity.
  - reflexivity.
Defined.

(** ** Threads *)

(** C9, on the code.  The attribute is assigned once, by the importing
    thread.  A parameter constructed there reads back in that thread; in
    every other thread [get], [set] and [parameterize] raise
    [AttributeError], not [KeyError], and change nothing. *)
Theorem other_thread_raises_AttributeError
    (importer t : nat) (default v : value) (conv : value → exn + value) (w w' : value) :
  t ≠ importer →
  conv default = inr w →
  conv v = inr w' →
  ∃ p s, Parameter_new default conv importer (module_state importer) = (Normal p, s) ∧
         Parameter_get p importer s = (Normal w, s) ∧
         context_local s !! t = None ∧
         Parameter_get p t s = (Raised (AttributeError "dynamic_environment"), s) ∧
         Parameter_set p v t s = (Raised (AttributeError "dynamic_environment"), s) ∧
         fst (Parameter_parameterize p v (Parameter_get p) t s)
           = Raised (AttributeError "dynamic_environment").
Proof.
  intros Ht Hc Hv.
  assert (context_local (module_state importer) !! importer = Some (Env 1%positive None))
    as Hh by (simpl; apply lookup_singleton_eq).
  destruct (Parameter_new_then_get default conv w importer _ _ Hh Hc)
    as (p & s & Hnew & Hconv & Hctx & Hget).
  exists p, s.
  assert (context_local s !! t = None) as Hnone.
  { rewrite Hctx. simpl. by apply lookup_singleton_ne. }
  split_and!; try done.
  - unfold Parameter_get, EnvironmentProxy_getitem, bind, get_dynamic_environment.
    by rewrite Hnone.
  - unfold Parameter_set, bind. rewrite Hconv.
    rewrite (call_converter_ok _ _ w') by done.
    unfold EnvironmentProxy_setitem, bind, get_dynamic_environment. by rewrite Hnone.
  - unfold Parameter_parameterize, bind. rewrite Hconv.
    rewrite (call_converter_ok _ _ w') by done.
    unfold new_dict, EnvironmentProxy_create, bind, get_dynamic_environment.
    simpl. by rewrite Hnone.
Qed.

Lemma other_thread_raises_AttributeError_witness :
  ∃ p s, Parameter_new (VInt 42) identity_converter main_thread (module_state main_thread)
           = (Normal p, s) ∧
         Parameter_get p main_thread s = (Normal (VInt 42), s) ∧
         context_local s !! 1%nat = None ∧
         Parameter_get p 1%nat s = (Raised (AttributeError "dynamic_environment"), s) ∧
         Parameter_set p (VInt 50) 1%nat s = (Raised (AttributeError "dynamic_environment"), s) ∧
         fst (Parameter_parameterize p (VInt 50) (Parameter_get p) 1%nat s)
           = Raised (AttributeError "dynamic_environment").
Proof.
  apply (other_thread_raises_AttributeError main_thread 1%nat (VInt 42) (VInt 50)
           identity_converter (VInt 42) (VInt 50)).
  - unfold main_thread. lia.
  - reflexivity.
  - reflexivity.
Defined.

(** ** Code in a scope keeps the outer bindings of the scope's key *)

Section ScopePreservation.

Variables (p : positive) (t : nat) (h : Environment) (d0 : positive).
Variable h0 : gmap positive (gmap positive value).
Hypothesis Hd0 : d0 ∉ env_refs h.

(** A computation keeps the invariant of the open scope, however it
    finishes. *)
Definition keeps_scope {A} (m : M A) : Prop :=
  ∀ e s, scope_inv p t h d0 h0 e s → scope_inv p t h d0 h0 e (snd (m t s)).

Lemma opened_above_outer e r :
  opened_above h d0 e → r ∈ env_refs h → r ∈ env_refs e.
Proof.
  induction e as [d|d pe IHpe] using Environment_chain_ind; simpl; [done|].
  intros [[-> ->]|[_ Hab]] Hr; apply elem_of_cons; right; [done|by apply IHpe].
Qed.

Lemma opened_above_owner e hp :
  opened_above h d0 e → is_Some (dict_of hp d0 !! p) →
  first_owner_or_root e p hp ∉ env_refs h.
Proof.
  intros Hab Hown.
  induction e as [d|d pe IHpe] using Environment_chain_ind; simpl in *; [done|].
  destruct Hab as [[-> ->]|[Hd Hab]].
  - by rewrite decide_True.
  - case_decide; [done|by apply IHpe].
Qed.

Lemma scope_inv_setitem e s k v :
  scope_inv p t h d0 h0 e s →
  scope_inv p t h d0 h0 e
    (with_heap (heap_write (first_owner_or_root e k (heap s)) k v (heap s)) s).
Proof.
  intros [Hhead Hab Hown Halloc Hout]. split; simpl; try done.
  - destruct (decide (k = p)) as [->|Hk].
    + rewrite heap_write_lookup_key. case_decide; [by eexists|done].
    + by rewrite heap_write_lookup_other.
  - intros r Hr. simpl. unfold heap_write. rewrite dom_insert. apply elem_of_union.
    right. by apply Halloc.
  - intros r Hr. rewrite <- (Hout r Hr). destruct (decide (k = p)) as [->|Hk].
    + rewrite heap_write_lookup_key. rewrite decide_False; [done|].
      intros Heq. apply (opened_above_owner e (heap s) Hab Hown). by rewrite Heq.
    + by apply heap_write_lookup_other.
Qed.

Lemma scope_inv_enter e s m :
  scope_inv p t h d0 h0 e s →
  scope_inv p t h d0 h0 (Env (fresh (dom (heap s))) (Some e))
    (enter_scope t (fresh (dom (heap s))) e
       (with_heap (<[fresh (dom (heap s)) := m]> (heap s)) s)).
Proof.
  intros [Hhead Hab Hown Halloc Hout].
  pose proof (fresh_dict_not_in_chain e s Halloc) as Hfresh.
  set (d := fresh (dom (heap s))) in *.
  assert (d ∉ env_refs h) as Hdh.
  { intros Hin. apply Hfresh. by apply opened_above_outer. }
  split; simpl.
  - apply lookup_insert_eq.
  - right. done.
  - rewrite dict_of_insert_ne; [done|]. intros ->.
    apply Hfresh. clear -Hab Hd0.
    induction e as [d1|d1 pe IHpe] using Environment_chain_ind; simpl in *; [done|].
    destruct Hab as [[-> ->]|[_ Hab]]; apply elem_of_cons; [by left|right; by apply IHpe].
  - intros r Hr. simpl. rewrite dom_insert. apply elem_of_union.
    apply elem_of_cons in Hr as [->|Hr]; [left; by apply elem_of_singleton|].
    right. by apply Halloc.
  - intros r Hr. rewrite <- (Hout r Hr). rewrite dict_of_insert_ne; [done|].
    by intros ->.
Qed.

Lemma scope_inv_exit d e s :
  opened_above h d0 e →
  scope_inv p t h d0 h0 (Env d (Some e)) s →
  scope_inv p t h d0 h0 e (exit_scope t e s).
Proof.
  intros Hab [Hhead _ Hown Halloc Hout]. split; simpl; try done.
  - apply lookup_insert_eq.
  - intros r Hr. apply Halloc. simpl. apply elem_of_cons. by right.
Qed.

Lemma keeps_scope_ret A (a : A) : keeps_scope (ret a).
Proof. by intros e s Hinv. Qed.

Lemma keeps_scope_raise A (x : exn) : keeps_scope (@raise A x).
Proof. by intros e s Hinv. Qed.

Lemma keeps_scope_return A (v : value) : keeps_scope (@return_early A v).
Proof. by intros e s Hinv. Qed.

Lemma keeps_scope_bind A B (m : M A) (f : A → M B) :
  keeps_scope m → (∀ a, keeps_scope (f a)) → keeps_scope (bind m f).
Proof.
  intros Hm Hf e s Hinv. unfold bind. specialize (Hm e s Hinv).
  destruct (m t s) as [[x|x|x] s1]; simpl in *; [by apply Hf|done|done].
Qed.

Lemma keeps_scope_try_finally A (body : M A) (final : M unit) :
  keeps_scope body → keeps_scope final → keeps_scope (try_finally body final).
Proof.
  intros Hbody Hfinal e s Hinv. unfold try_finally. specialize (Hbody e s Hinv).
  destruct (body t s) as [o s1]. simpl in Hbody.
  specialize (Hfinal e s1 Hbody).
  by destruct (final t s1) as [[x|x|x] s2].
Qed.

Lemma keeps_scope_call_converter conv v : keeps_scope (call_converter conv v).
Proof.
  unfold call_converter. destruct (conv v); [apply keeps_scope_raise|apply keeps_scope_ret].
Qed.

Lemma keeps_scope_getitem k : keeps_scope (EnvironmentProxy_getitem k).
Proof.
  intros e s Hinv. rewrite (EnvironmentProxy_getitem_spec e) by apply Hinv.
  by destruct (chain_lookup e k (heap s)).
Qed.

Lemma keeps_scope_setitem k v : keeps_scope (EnvironmentProxy_setitem k v).
Proof.
  intros e s Hinv. rewrite (EnvironmentProxy_setitem_spec e) by apply Hinv.
  by apply scope_inv_setitem.
Qed.

Lemma keeps_scope_new_object : keeps_scope new_object.
Proof. intros e s [Hhead Hab Hown Halloc Hout]. by split. Qed.

Lemma keeps_scope_create_scope A bindings (body : M A) :
  keeps_scope body → keeps_scope (create_scope bindings body).
Proof.
  intros Hbody e s Hinv. unfold create_scope, bind, new_dict.
  rewrite (EnvironmentProxy_create_spec _ _ t _ e) by apply Hinv.
  simpl snd. apply (scope_inv_exit (fresh (dom (heap s)))); [apply Hinv|].
  apply Hbody. by apply scope_inv_enter.
Qed.

Lemma keeps_scope_Parameter_set (q : parameter) v : keeps_scope (Parameter_set q v).
Proof.
  unfold Parameter_set. apply keeps_scope_bind; [apply keeps_scope_call_converter|].
  intros w. apply keeps_scope_bind; [apply keeps_scope_setitem|].
  intros _. apply keeps_scope_ret.
Qed.

Lemma keeps_scope_Parameter_new default conv : keeps_scope (Parameter_new default conv).
Proof.
  unfold Parameter_new. apply keeps_scope_bind; [apply keeps_scope_new_object|].
  intros self. unfold Parameter_init.
  apply keeps_scope_bind; [apply keeps_scope_call_converter|].
  intros w. apply keeps_scope_bind; [apply keeps_scope_setitem|].
  intros _. apply keeps_scope_ret.
Qed.

(** Code that works through parameter objects keeps the invariant. *)
Lemma parameter_code_keeps_scope A (m : M A) : parameter_code A m → keeps_scope m.
Proof.
  induction 1 as [A x|A B m f Hm IHm Hf IHf|A x|A x|q|q v|q args|default conv
                 |A q v body Hbody IHbody|A body final Hbody IHbody Hfinal IHfinal].
  - apply keeps_scope_ret.
  - by apply keeps_scope_bind.
  - apply keeps_scope_raise.
  - apply keeps_scope_return.
  - apply keeps_scope_getitem.
  - apply keeps_scope_Parameter_set.
  - destruct args as [|x [|y args]]; simpl.
    + apply keeps_scope_getitem.
    + apply keeps_scope_Parameter_set.
    + apply keeps_scope_raise.
  - apply keeps_scope_Parameter_new.
  - unfold Parameter_parameterize.
    apply keeps_scope_bind; [apply keeps_scope_call_converter|].
    intros w. by apply (keeps_scope_create_scope A {[self_id q := w]} body).
  - by apply keeps_scope_try_finally.
Qed.

End ScopePreservation.

(** ** Scope exit *)

Lemma Parameter_parameterize_spec {A} (self : parameter) v w (body : M A) t s h :
  context_local s !! t = Some h →
  _converter self v = inr w →
  let d := fresh (dom (heap s)) in
  let sin := enter_scope t d h (with_heap (<[d := {[self_id self := w]}]> (heap s)) s) in
  Parameter_parameterize self v body t s
    = (fst (body t sin), exit_scope t h (snd (body t sin))).
Proof.
  intros Hh Hc d sin. unfold Parameter_parameterize, bind.
  rewrite (call_converter_ok _ _ w) by done.
  unfold new_dict. fold d.
  by rewrite (EnvironmentProxy_create_spec d body t _ h).
Qed.

(** X13.  However the enclosed code finishes, normally, by an early return
    or by an exception, the [with] statement finishes the same way, on the
    state the code left with the head saved at entry put back: for
    [create] and for [parameterize], and for every enclosed computation. *)
Theorem scope_exit_restores_head :
  (∀ A (data : positive) (body : M A) (t : nat) (s : state) (h : Environment),
     context_local s !! t = Some h →
     EnvironmentProxy_create data body t s
       = (fst (body t (enter_scope t data h s)),
          exit_scope t h (snd (body t (enter_scope t data h s)))) ∧
     context_local (snd (EnvironmentProxy_create data body t s)) !! t = Some h) ∧
  (∀ A (self : parameter) (v w : value) (body : M A) (t : nat) (s : state)
     (h : Environment),
     context_local s !! t = Some h →
     _converter self v = inr w →
     let d := fresh (dom (heap s)) in
     let sin := enter_scope t d h (with_heap (<[d := {[self_id self := w]}]> (heap s)) s) in
     Parameter_parameterize self v body t s
       = (fst (body t sin), exit_scope t h (snd (body t sin))) ∧
     context_local (snd (Parameter_parameterize self v body t s)) !! t = Some h).
Proof.
  split.
  - intros A data body t s h Hh.
    rewrite (EnvironmentProxy_create_spec data body t s h Hh).
    split; [done|apply exit_scope_head].
  - intros A self v w body t s h Hh Hc d sin.
    rewrite (Parameter_parameterize_spec self v w body t s h Hh Hc).
    split; [done|apply exit_scope_head].
Qed.

Lemma scope_exit_restores_head_witness :
  let body := Parameter_set p1 (VInt 51) ;;; @raise unit (OtherError "boom") in
  let d := fresh (dom (heap tests_state)) in
  let sin := enter_scope main_thread d (Env 1%positive None)
               (with_heap (<[d := {[self_id p1 := VInt 50]}]> (heap tests_state))
                  tests_state) in
  Parameter_parameterize p1 (VInt 50) body main_thread tests_state
    = (fst (body main_thread sin),
       exit_scope main_thread (Env 1%positive None) (snd (body main_thread sin))) ∧
  context_local (snd (Parameter_parameterize p1 (VInt 50) body main_thread tests_state))
    !! main_thread = Some (Env 1%positive None).
Proof.
  destruct scope_exit_restores_head as (_ & Hparam).
  apply (Hparam unit p1 (VInt 50) (VInt 50)); reflexivity.
Defined.

(** X14.  When the block of [with p.parameterize(v):] works through
    parameter objects only, [get] on [p] gives after the [with] statement
    exactly what it gave before it, a value or [KeyError], however the
    block finishes. *)
Theorem parameterize_restores_value
    (A : Type) (self : parameter) (v w : value) (body : M A) (t : nat) (s : state)
    (h : Environment) :
  context_local s !! t = Some h →
  chain_allocated h s →
  _converter self v = inr w →
  parameter_code A body →
  let s' := snd (Parameter_parameterize self v body t s) in
  context_local s' !! t = Some h ∧
  Parameter_get self t s' = (fst (Parameter_get self t s), s').
Proof.
  intros Hh Halloc Hc Hbody s'.
  pose proof (fresh_dict_not_in_chain h s Halloc) as Hfresh.
  subst s'. rewrite (Parameter_parameterize_spec self v w body t s h Hh Hc).
  set (d := fresh (dom (heap s))) in *.
  set (sin := enter_scope t d h (with_heap (<[d := {[self_id self := w]}]> (heap s)) s)).
  simpl snd. split; [apply exit_scope_head|].
  assert (scope_inv (self_id self) t h d (heap s) (Env d (Some h)) sin) as Hinv.
  { split; simpl.
    - apply lookup_insert_eq.
    - by left.
    - rewrite dict_of_insert_eq, lookup_singleton_eq. by eexists.
    - intros r Hr. simpl. rewrite dom_insert. apply elem_of_union.
      apply elem_of_cons in Hr as [->|Hr]; [left; by apply elem_of_singleton|].
      right. by apply Halloc.
    - intros r Hr. rewrite dict_of_insert_ne; [done|]. by intros ->. }
  apply (parameter_code_keeps_scope _ t h d (heap s) Hfresh A body Hbody) in Hinv.
  unfold Parameter_get.
  rewrite (EnvironmentProxy_getitem_spec h _ t (exit_scope _ _ _))
    by apply exit_scope_head.
  rewrite (EnvironmentProxy_getitem_spec h _ t s) by done.
  simpl heap.
  rewrite (chain_lookup_ext h (self_id self) _ (heap s)) by apply Hinv.
  by destruct (chain_lookup h (self_id self) (heap s)).
Qed.

Lemma parameterize_restores_value_witness :
  let body := Parameter_set p1 (VInt 51) ;;; @raise unit (OtherError "boom") in
  let s' := snd (Parameter_parameterize p1 (VInt 50) body main_thread tests_state) in
  context_local s' !! main_thread = Some (Env 1%positive None) ∧
  Parameter_get p1 main_thread s'
    = (fst (Parameter_get p1 main_thread tests_state), s').
Proof.
  apply (parameterize_restores_value unit p1 (VInt 50) (VInt 50)).
  - reflexivity.
  - exact tests_state_allocated.
  - reflexivity.
  - apply pc_bind; [apply pc_set|]. intros _. apply pc_raise.
Defined.

(** C3, on the code.  The head is restored, the value is not: the block of
    [with p1.parameterize(50):] deletes the scope's binding of [p1] through
    the facade and then sets [p1]; the write finds no owner in the scope
    frame and goes through to the root.  The [with] statement completes
    normally with the head restored, and [get] gives 51 where it gave 42
    before. *)
Theorem deleting_the_scope_binding_lets_set_escape :
  fst (Parameter_get p1 main_thread tests_state) = Normal (VInt 42) ∧
  fst (Parameter_parameterize p1 (VInt 50) delete_then_set main_thread tests_state)
    = Normal VNone ∧
  context_local
    (snd (Parameter_parameterize p1 (VInt 50) delete_then_set main_thread tests_state))
    !! main_thread = Some (Env 1%positive None) ∧
  fst (Parameter_get p1 main_thread
         (snd (Parameter_parameterize p1 (VInt 50) delete_then_set main_thread tests_state)))
    = Normal (VInt 51) ∧
  fst (Parameter_get p1 main_thread
         (snd (Parameter_parameterize p1 (VInt 50) delete_then_set main_thread tests_state)))
    ≠ fst (Parameter_get p1 main_thread tests_state).
Proof.
  split_and!; try reflexivity.
  vm_compute. by intros [=].
Qed.

(** ** The test suite *)

Example tests_setup_parameters :
  fst (tests_setup main_thread (module_state main_thread)) = Normal (p1, p2).
Proof. reflexivity. Qed.

Example test_set_get_del_passes :
  fst (test_set_get_del main_thread tests_state)
  = Normal (Some (KeyError a), VInt 42, Some (KeyError a)).
Proof. reflexivity. Qed.

Example test_create_passes :
  fst (test_create main_thread tests_state)
  = Normal (Some (KeyError a), (VInt 42, VInt 43), Some (KeyError a)).
Proof. reflexivity. Qed.

Example test_create_set_passes :
  fst (test_create_set main_thread tests_state)
  = Normal (Some (KeyError a), VInt 43, Some (KeyError b)).
Proof. reflexivity. Qed.

Example test_get_set_passes :
  fst (test_get_set main_thread tests_state) = Normal (VInt 42, VInt 50, VInt 42).
Proof. reflexivity. Qed.

Example test_get_set_sugar_passes :
  fst (test_get_set_sugar main_thread tests_state)
  = Normal (Some (TypeError "__call__() requires either 1 or 2 arguments"),
            VInt 42, VInt 50, VInt 42).
Proof. reflexivity. Qed.

Example test_converter_passes :
  fst (test_converter main_thread tests_state)
  = Normal (VInt 42, VInt 42, VStr "42", VInt 42).
Proof. reflexivity. Qed.

Example test_parameterize_passes :
  fst (test_parameterize main_thread tests_state)
  = Normal (VInt 42, (VInt 50, VInt 51), VInt 42).
Proof. reflexivity. Qed.

(** ** Iteration and length *)

Lemma dict_keys_elem h d k :
  k ∈ (map_to_list (dict_of h d)).*1 ↔ is_Some (dict_of h d !! k).
Proof.
  rewrite list_elem_of_fmap. split.
  - intros [[k' v] [-> Hin]]. apply elem_of_map_to_list in Hin. by exists v.
  - intros [v Hv]. exists (k, v). split; [done|]. by apply elem_of_map_to_list.
Qed.

Lemma keep_unowned_spec data ks t s :
  keep_unowned data ks t s
  = (Normal (filter (λ k, dict_of (heap s) data !! k = None) ks), s).
Proof.
  induction ks as [|k ks IHks]; simpl; [done|].
  unfold bind, dict_contains. rewrite IHks. unfold ret.
  destruct (dict_of (heap s) data !! k) eqn:Hk; simpl.
  - rewrite filter_cons_False; [done|]. by rewrite Hk.
  - rewrite filter_cons_True; [done|]. by rewrite Hk.
Qed.

Lemma Environment_iter_spec e t s :
  Environment_iter e t s = (Normal (iter_keys e (heap s)), s).
Proof.
  induction e as [d|d p IHp] using Environment_chain_ind; simpl; [done|].
  unfold bind, dict_keys. rewrite IHp. by rewrite keep_unowned_spec.
Qed.

Lemma iter_keys_elem e k h :
  k ∈ iter_keys e h ↔ is_Some (chain_lookup e k h).
Proof.
  induction e as [d|d p IHp] using Environment_chain_ind; simpl.
  - rewrite dict_keys_elem. by destruct (dict_of h d !! k).
  - rewrite elem_of_app, list_elem_of_filter, dict_keys_elem, IHp.
    destruct (dict_of h d !! k) eqn:Hk; split.
    + by eexists.
    + intros _. left. by eexists.
    + intros [[? ?]|[_ ?]]; done.
    + intros Hp. by right.
Qed.

Lemma iter_keys_NoDup e h : NoDup (iter_keys e h).
Proof.
  induction e as [d|d p IHp] using Environment_chain_ind; simpl.
  - apply NoDup_fst_map_to_list.
  - apply NoDup_app. split_and!.
    + apply NoDup_fst_map_to_list.
    + intros k Hown Hrest. apply dict_keys_elem in Hown as [v Hv].
      apply list_elem_of_filter in Hrest as [Hnone _]. congruence.
    + by apply NoDup_filter.
Qed.

Lemma visible_keys_elem e k h :
  k ∈ visible_keys e h ↔ is_Some (chain_lookup e k h).
Proof.
  induction e as [d|d p IHp] using Environment_chain_ind; simpl.
  - rewrite elem_of_dom. by destruct (dict_of h d !! k).
  - rewrite elem_of_union, elem_of_dom, IHp.
    destruct (dict_of h d !! k) eqn:Hk; split.
    + by eexists.
    + intros _. left. by eexists.
    + intros [[? ?]|?]; done.
    + intros Hp. by right.
Qed.

Lemma iter_keys_length e h : length (iter_keys e h) = size (visible_keys e h).
Proof.
  rewrite <- (size_list_to_set (C := gset positive)) by apply iter_keys_NoDup.
  f_equal. apply set_eq. intros k.
  by rewrite elem_of_list_to_set, iter_keys_elem, visible_keys_elem.
Qed.

Lemma chain_lookup_remove_other e k k' r h :
  k ≠ k' → chain_lookup e k' (heap_remove r k h) = chain_lookup e k' h.
Proof.
  intros Hk.
  induction e as [d|d p IHp] using Environment_chain_ind; simpl;
    rewrite heap_remove_lookup_other by done; [done|by rewrite IHp].
Qed.

Lemma visible_keys_write e k v h :
  visible_keys e (heap_write (first_owner_or_root e k h) k v h)
  = {[k]} ∪ visible_keys e h.
Proof.
  apply set_eq. intros k'.
  rewrite elem_of_union, elem_of_singleton, !visible_keys_elem.
  destruct (decide (k = k')) as [<-|Hk].
  - rewrite chain_lookup_write. split; [by left|by eexists].
  - rewrite chain_lookup_write_other by done. split; [by right|].
    by intros [?|?].
Qed.

Lemma Environment_len_spec e t s :
  Environment_len e t s = (Normal (size (visible_keys e (heap s))), s).
Proof.
  unfold Environment_len, bind. rewrite Environment_iter_spec.
  unfold ret. by rewrite iter_keys_length.
Qed.

Lemma visible_keys_getitem e k t s :
  k ∈ visible_keys e (heap s) ↔ ∃ v, Environment_getitem e k t s = (Normal v, s).
Proof.
  rewrite visible_keys_elem, Environment_getitem_spec.
  destruct (chain_lookup e k (heap s)) as [v|]; split.
  - intros _. by exists v.
  - by eexists.
  - by intros [? ?].
  - by intros [? [=]].
Qed.

(** X1.  Iterating an environment yields exactly the keys for which
    [get] succeeds, each of them once, also when several frames bind the
    same key, and leaves the state as it was. *)
Theorem iter_yields_each_bound_key_once (self : Environment) (t : nat) (s : state) :
  ∃ ks, Environment_iter self t s = (Normal ks, s) ∧
        NoDup ks ∧
        ∀ k, k ∈ ks ↔ ∃ v, Environment_getitem self k t s = (Normal v, s).
Proof.
  exists (iter_keys self (heap s)). split; [apply Environment_iter_spec|].
  split; [apply iter_keys_NoDup|].
  intros k. rewrite iter_keys_elem, Environment_getitem_spec.
  destruct (chain_lookup self k (heap s)) as [v|]; split.
  - intros _. by exists v.
  - by eexists.
  - by intros [? ?].
  - by intros [? [=]].
Qed.

(** X2.  [len] of an environment is the number of distinct keys bound in
    any frame of the chain: a key that an inner frame shadows counts once.
    These are the keys for which [get] succeeds. *)
Theorem len_counts_distinct_bound_keys (self : Environment) (t : nat) (s : state) :
  Environment_len self t s = (Normal (size (visible_keys self (heap s))), s) ∧
  ∀ k, k ∈ visible_keys self (heap s) ↔
       ∃ v, Environment_getitem self k t s = (Normal v, s).
Proof.
  split; [apply Environment_len_spec|]. intros k. apply visible_keys_getitem.
Qed.

(** X3.  Round trip through the facade: in a thread that has an
    environment, of any depth, [get(k)] right after [set(k, v)] gives [v];
    the write changes neither the head nor any other thread's slot. *)
Theorem facade_set_then_get (k : positive) (v : value) (t : nat) (s : state)
    (h : Environment) :
  context_local s !! t = Some h →
  ∃ s', EnvironmentProxy_setitem k v t s = (Normal tt, s') ∧
        EnvironmentProxy_getitem k t s' = (Normal v, s') ∧
        context_local s' = context_local s.
Proof.
  intros Hh. rewrite (EnvironmentProxy_setitem_spec h) by done.
  eexists. split; [reflexivity|]. split; [|done].
  rewrite (EnvironmentProxy_getitem_spec h) by done.
  simpl. by rewrite chain_lookup_write.
Qed.

Lemma facade_set_then_get_witness :
  ∃ s', EnvironmentProxy_setitem a (VInt 42) main_thread scope_state = (Normal tt, s') ∧
        EnvironmentProxy_getitem a main_thread s' = (Normal (VInt 42), s') ∧
        context_local s' = context_local scope_state.
Proof.
  apply (facade_set_then_get a (VInt 42) main_thread scope_state scope_frame).
  reflexivity.
Defined.

(** X4.  Writing or deleting one key changes what [get] gives for no other
    key, wherever in the chain the write or the removal lands. *)
Theorem set_and_delete_leave_other_keys
    (self : Environment) (k k' : positive) (v : value) (t : nat) (s : state) :
  k ≠ k' →
  fst (Environment_getitem self k' t (snd (Environment_setitem self k v t s)))
    = fst (Environment_getitem self k' t s) ∧
  fst (Environment_getitem self k' t (snd (Environment_delitem self k t s)))
    = fst (Environment_getitem self k' t s).
Proof.
  intros Hk. split.
  - rewrite Environment_setitem_spec, !Environment_getitem_spec. simpl.
    rewrite chain_lookup_write_other by done.
    by destruct (chain_lookup self k' (heap s)).
  - rewrite Environment_delitem_spec, !Environment_getitem_spec.
    destruct (chain_lookup self k (heap s)); simpl.
    + rewrite chain_lookup_remove_other by done.
      by destruct (chain_lookup self k' (heap s)).
    + by destruct (chain_lookup self k' (heap s)).
Qed.

Lemma set_and_delete_leave_other_keys_witness :
  fst (Environment_getitem scope_frame 1%positive main_thread
         (snd (Environment_setitem scope_frame 2%positive (VInt 8) main_thread scope_state)))
    = fst (Environment_getitem scope_frame 1%positive main_thread scope_state) ∧
  fst (Environment_getitem scope_frame 1%positive main_thread
         (snd (Environment_delitem scope_frame 2%positive main_thread scope_state)))
    = fst (Environment_getitem scope_frame 1%positive main_thread scope_state).
Proof.
  apply (set_and_delete_leave_other_keys scope_frame 2%positive 1%positive (VInt 8)
           main_thread scope_state).
  lia.
Defined.

(** X5.  [set] on a key the chain already binds leaves [len] as it is;
    [set] on a key no frame binds makes [len] one more. *)
Theorem set_grows_len_only_for_new_keys
    (self : Environment) (k : positive) (v : value) (t : nat) (s : state) :
  let s' := snd (Environment_setitem self k v t s) in
  ((∃ w, Environment_getitem self k t s = (Normal w, s)) →
     fst (Environment_len self t s') = fst (Environment_len self t s)) ∧
  (Environment_getitem self k t s = (Raised (KeyError k), s) →
     ∃ n, fst (Environment_len self t s) = Normal n ∧
          fst (Environment_len self t s') = Normal (S n)).
Proof.
  intros s'. subst s'. rewrite Environment_setitem_spec. simpl.
  rewrite !Environment_len_spec. simpl. rewrite visible_keys_write. split.
  - intros Hbound. apply visible_keys_getitem in Hbound. f_equal. f_equal.
    apply set_eq. intros k'. rewrite elem_of_union, elem_of_singleton.
    split; [intros [->|?]; done|by right].
  - intros Hun. eexists. split; [reflexivity|]. f_equal.
    rewrite size_union, size_singleton; [done|].
    apply disjoint_singleton_l. intros Hin.
    apply (visible_keys_getitem self k t s) in Hin as [w Hw]. congruence.
Qed.

Lemma set_grows_len_only_for_new_keys_witness :
  ∃ n, fst (Environment_len scope_frame main_thread scope_state) = Normal n ∧
       fst (Environment_len scope_frame main_thread
              (snd (Environment_setitem scope_frame a (VInt 1) main_thread scope_state)))
         = Normal (S n).
Proof.
  apply (set_grows_len_only_for_new_keys scope_frame a (VInt 1) main_thread scope_state).
  reflexivity.
Defined.

(** ** Scopes opened on a dictionary display *)

Lemma heap_with_heap h s : heap (with_heap h s) = h.
Proof. done. Qed.

Lemma heap_exit_scope t e s : heap (exit_scope t e s) = heap s.
Proof. done. Qed.

Lemma create_scope_spec {A} (bindings : gmap positive value) (body : M A) t s h :
  context_local s !! t = Some h →
  let d := fresh (dom (heap s)) in
  let sin := enter_scope t d h (with_heap (<[d := bindings]> (heap s)) s) in
  create_scope bindings body t s = (fst (body t sin), exit_scope t h (snd (body t sin))).
Proof.
  intros Hh d sin. unfold create_scope, bind, new_dict. fold d.
  by rewrite (EnvironmentProxy_create_spec d body t _ h).
Qed.

Lemma new_dict_keeps_chain e s (m : gmap positive value) r :
  chain_allocated e s → r ∈ env_refs e →
  dict_of (<[fresh (dom (heap s)) := m]> (heap s)) r = dict_of (heap s) r.
Proof.
  intros Halloc Hr. apply dict_of_insert_ne. intros Heq.
  apply (fresh_dict_not_in_chain e s Halloc). by rewrite Heq.
Qed.

Lemma first_owner_ext e k h1 h2 :
  (∀ r, r ∈ env_refs e → dict_of h1 r !! k = dict_of h2 r !! k) →
  first_owner_or_root e k h1 = first_owner_or_root e k h2.
Proof.
  induction e as [d|d p IHp] using Environment_chain_ind; simpl; intros Hsame; [done|].
  rewrite (Hsame d) by (apply elem_of_cons; by left).
  case_decide; [done|]. apply IHp. intros r Hr. apply Hsame. apply elem_of_cons. by right.
Qed.

Lemma visible_keys_ext e h1 h2 :
  (∀ r, r ∈ env_refs e → dict_of h1 r = dict_of h2 r) →
  visible_keys e h1 = visible_keys e h2.
Proof.
  induction e as [d|d p IHp] using Environment_chain_ind; simpl; intros Hsame.
  - by rewrite (Hsame d) by (apply elem_of_cons; by left).
  - rewrite (Hsame d) by (apply elem_of_cons; by left).
    rewrite IHp; [done|]. intros r Hr. apply Hsame. apply elem_of_cons. by right.
Qed.

(** X6.  Deleting a key inside the scope that shadows it removes the
    shadow only: the enclosing binding shows again at once, and is there
    unchanged after the scope is left. *)
Theorem delete_in_scope_reveals_outer_binding
    (k : positive) (v0 v1 : value) (bindings : gmap positive value)
    (t : nat) (s : state) (h : Environment) :
  context_local s !! t = Some h →
  chain_allocated h s →
  EnvironmentProxy_getitem k t s = (Normal v0, s) →
  bindings !! k = Some v1 →
  ∃ s1,
    create_scope bindings
      (x <~ EnvironmentProxy_getitem k ;;
       EnvironmentProxy_delitem k ;;;
       y <~ EnvironmentProxy_getitem k ;;
       ret (x, y)) t s = (Normal (v1, v0), s1) ∧
    EnvironmentProxy_getitem k t s1 = (Normal v0, s1).
Proof.
  intros Hh Halloc Hget Hk.
  rewrite (EnvironmentProxy_getitem_spec h) in Hget by done.
  destruct (chain_lookup h k (heap s)) as [x|] eqn:Hl; [|done].
  injection Hget as ->.
  rewrite (create_scope_spec bindings _ t s h Hh).
  set (d := fresh (dom (heap s))).
  set (sin := enter_scope t d h (with_heap (<[d := bindings]> (heap s)) s)).
  assert (context_local sin !! t = Some (Env d (Some h))) as Hin by apply enter_scope_head.
  assert (dict_of (heap sin) d !! k = Some v1) as Hd1.
  { simpl. by rewrite dict_of_insert_eq. }
  assert (chain_lookup h k (heap_remove d k (heap sin)) = Some v0) as Hafter.
  { rewrite <- Hl. apply chain_lookup_ext. intros r Hr.
    assert (d ≠ r) as Hne.
    { intros <-. by apply (fresh_dict_not_in_chain h s Halloc). }
    rewrite heap_remove_lookup_key, decide_False by done. simpl.
    by rewrite dict_of_insert_ne. }
  match goal with |- context [fst (?b t sin)] => set (body := b) end.
  assert (body t sin = (Normal (v1, v0), with_heap (heap_remove d k (heap sin)) sin))
    as Hbody.
  { unfold body, bind.
    rewrite (EnvironmentProxy_getitem_spec (Env d (Some h))) by done.
    rewrite (chain_lookup_own _ _ _ _ v1) by done.
    rewrite (EnvironmentProxy_delitem_spec (Env d (Some h))) by done.
    rewrite (chain_lookup_own _ _ _ _ v1) by done.
    rewrite first_owner_own by (by rewrite Hd1).
    rewrite (EnvironmentProxy_getitem_spec (Env d (Some h))) by done.
    rewrite chain_lookup_skip
      by (simpl; by rewrite heap_remove_lookup_key, decide_True).
    by rewrite heap_with_heap, Hafter. }
  rewrite Hbody. cbn [fst snd].
  eexists. split; [reflexivity|].
  rewrite (EnvironmentProxy_getitem_spec h) by apply exit_scope_head.
  by rewrite heap_exit_scope, heap_with_heap, Hafter.
Qed.

Lemma delete_in_scope_reveals_outer_binding_witness :
  ∃ s1,
    create_scope {[ 1%positive := VInt 50 ]}
      (x <~ EnvironmentProxy_getitem 1%positive ;;
       EnvironmentProxy_delitem 1%positive ;;;
       y <~ EnvironmentProxy_getitem 1%positive ;;
       ret (x, y)) main_thread tests_state = (Normal (VInt 50, VInt 42), s1) ∧
    EnvironmentProxy_getitem 1%positive main_thread s1 = (Normal (VInt 42), s1).
Proof.
  apply (delete_in_scope_reveals_outer_binding 1%positive (VInt 42) (VInt 50)
           {[ 1%positive := VInt 50 ]} main_thread tests_state (Env 1%positive None)).
  - reflexivity.
  - exact tests_state_allocated.
  - reflexivity.
  - reflexivity.
Defined.

(** X7.  Deletion sees through scopes as writes do: inside a scope that
    does not bind the key, [delete(k)] removes the enclosing binding, and
    when that was the only frame binding [k], [get(k)] raises [KeyError]
    after the scope is left. *)
Theorem delete_sees_through_scope
    (k : positive) (v0 : value) (bindings : gmap positive value)
    (t : nat) (s : state) (h : Environment) :
  context_local s !! t = Some h →
  chain_allocated h s →
  EnvironmentProxy_getitem k t s = (Normal v0, s) →
  (∀ r, r ∈ env_refs h → r ≠ first_owner_or_root h k (heap s) →
        dict_of (heap s) r !! k = None) →
  bindings !! k = None →
  ∃ s1, create_scope bindings (EnvironmentProxy_delitem k) t s = (Normal tt, s1) ∧
        context_local s1 !! t = Some h ∧
        EnvironmentProxy_getitem k t s1 = (Raised (KeyError k), s1).
Proof.
  intros Hh Halloc Hget Honly Hk.
  rewrite (EnvironmentProxy_getitem_spec h) in Hget by done.
  destruct (chain_lookup h k (heap s)) as [x|] eqn:Hl; [|done].
  injection Hget as ->.
  rewrite (create_scope_spec bindings _ t s h Hh).
  set (d := fresh (dom (heap s))).
  set (sin := enter_scope t d h (with_heap (<[d := bindings]> (heap s)) s)).
  assert (context_local sin !! t = Some (Env d (Some h))) as Hin by apply enter_scope_head.
  assert (dict_of (heap sin) d !! k = None) as Hd1.
  { simpl. by rewrite dict_of_insert_eq. }
  assert (∀ r, r ∈ env_refs h → dict_of (heap sin) r = dict_of (heap s) r) as Hsame.
  { intros r Hr. simpl. by apply (new_dict_keeps_chain h). }
  set (r0 := first_owner_or_root h k (heap s)) in *.
  assert (EnvironmentProxy_delitem k t sin
          = (Normal tt, with_heap (heap_remove r0 k (heap sin)) sin)) as Hbody.
  { rewrite (EnvironmentProxy_delitem_spec (Env d (Some h))) by done.
    rewrite chain_lookup_skip, first_owner_skip by done.
    rewrite (chain_lookup_ext h k _ (heap s)) by (intros r Hr; by rewrite Hsame).
    rewrite (first_owner_ext h k _ (heap s)) by (intros r Hr; by rewrite Hsame).
    by rewrite Hl. }
  rewrite Hbody. cbn [fst snd].
  eexists. split; [reflexivity|]. split; [apply exit_scope_head|].
  rewrite (EnvironmentProxy_getitem_spec h) by apply exit_scope_head.
  rewrite heap_exit_scope, heap_with_heap.
  assert (chain_lookup h k (heap_remove r0 k (heap sin)) = None) as ->; [|done].
  apply chain_lookup_None. intros r Hr.
  rewrite heap_remove_lookup_key. case_decide as Hrr; [done|].
  rewrite Hsame by done. apply Honly; [done|congruence].
Qed.

Lemma delete_sees_through_scope_witness :
  ∃ s1, create_scope {[ b := VInt 1 ]} (EnvironmentProxy_delitem 1%positive)
          main_thread tests_state = (Normal tt, s1) ∧
        context_local s1 !! main_thread = Some (Env 1%positive None) ∧
        EnvironmentProxy_getitem 1%positive main_thread s1
          = (Raised (KeyError 1%positive), s1).
Proof.
  apply (delete_sees_through_scope 1%positive (VInt 42) {[ b := VInt 1 ]}
           main_thread tests_state (Env 1%positive None)).
  - reflexivity.
  - exact tests_state_allocated.
  - reflexivity.
  - intros r Hr Hne. apply list_elem_of_singleton in Hr. subst r. by destruct Hne.
  - reflexivity.
Defined.

(** X8.  A key that no frame binds, set inside a scope that does not bind
    it either, is bound in the root frame and still there after the scope
    is left. *)
Theorem new_key_set_in_scope_lands_in_root
    (k : positive) (v : value) (bindings : gmap positive value)
    (t : nat) (s : state) (h : Environment) :
  context_local s !! t = Some h →
  chain_allocated h s →
  EnvironmentProxy_getitem k t s = (Raised (KeyError k), s) →
  bindings !! k = None →
  ∃ s1, create_scope bindings (EnvironmentProxy_setitem k v) t s = (Normal tt, s1) ∧
        dict_of (heap s1) (_data (root_frame h)) !! k = Some v ∧
        EnvironmentProxy_getitem k t s1 = (Normal v, s1).
Proof.
  intros Hh Halloc Hget Hk.
  rewrite (EnvironmentProxy_getitem_spec h) in Hget by done.
  destruct (chain_lookup h k (heap s)) as [x|] eqn:Hl; [done|]. clear Hget.
  rewrite (create_scope_spec bindings _ t s h Hh).
  set (d := fresh (dom (heap s))).
  set (sin := enter_scope t d h (with_heap (<[d := bindings]> (heap s)) s)).
  assert (context_local sin !! t = Some (Env d (Some h))) as Hin by apply enter_scope_head.
  assert (dict_of (heap sin) d !! k = None) as Hd1.
  { simpl. by rewrite dict_of_insert_eq. }
  assert (∀ r, r ∈ env_refs h → dict_of (heap sin) r = dict_of (heap s) r) as Hsame.
  { intros r Hr. simpl. by apply (new_dict_keeps_chain h). }
  assert (first_owner_or_root h k (heap sin) = _data (root_frame h)) as Hroot.
  { apply first_owner_unbound. apply chain_lookup_None.
    rewrite (chain_lookup_ext h k _ (heap s)); [done|].
    intros r Hr. by rewrite Hsame. }
  rewrite (EnvironmentProxy_setitem_spec (Env d (Some h))) by done.
  rewrite first_owner_skip by done.
  cbn [fst snd].
  eexists. split; [reflexivity|]. split.
  - rewrite heap_exit_scope, heap_with_heap, Hroot.
    by rewrite heap_write_lookup_key, decide_True.
  - rewrite (EnvironmentProxy_getitem_spec h) by apply exit_scope_head.
    by rewrite heap_exit_scope, heap_with_heap, chain_lookup_write.
Qed.

Lemma new_key_set_in_scope_lands_in_root_witness :
  ∃ s1, create_scope {[ b := VInt 42 ]} (EnvironmentProxy_setitem a (VInt 43))
          main_thread tests_state = (Normal tt, s1) ∧
        dict_of (heap s1) (_data (root_frame (Env 1%positive None))) !! a = Some (VInt 43) ∧
        EnvironmentProxy_getitem a main_thread s1 = (Normal (VInt 43), s1).
Proof.
  apply (new_key_set_in_scope_lands_in_root a (VInt 43) {[ b := VInt 42 ]}
           main_thread tests_state (Env 1%positive None)).
  - reflexivity.
  - exact tests_state_allocated.
  - reflexivity.
  - reflexivity.
Defined.

(** ** Parameters in scopes *)

Lemma EnvironmentProxy_len_spec e t s :
  context_local s !! t = Some e →
  EnvironmentProxy_len t s = (Normal (size (visible_keys e (heap s))), s).
Proof.
  intros He. unfold EnvironmentProxy_len, bind, get_dynamic_environment.
  rewrite He. apply Environment_len_spec.
Qed.

(** X9.  Inside [with p.parameterize(v):] the parameter reads
    [converter(v)], and the head is back afterwards.  When the converter
    rejects [v], the exception leaves the [with] statement before any scope
    is opened: the block does not run and the state is untouched. *)
Theorem parameterize_binds_converted_value
    (A : Type) (self : parameter) (v : value) (body : M A) (t : nat) (s : state) :
  (∀ h w, context_local s !! t = Some h → _converter self v = inr w →
     ∃ s', Parameter_parameterize self v (Parameter_get self) t s = (Normal w, s') ∧
           context_local s' !! t = Some h) ∧
  (∀ e, _converter self v = inl e →
     Parameter_parameterize self v body t s = (Raised e, s)).
Proof.
  split.
  - intros h w Hh Hc.
    rewrite (Parameter_parameterize_spec self v w _ t s h Hh Hc).
    set (d := fresh (dom (heap s))).
    set (sin := enter_scope t d h (with_heap (<[d := {[self_id self := w]}]> (heap s)) s)).
    assert (Parameter_get self t sin = (Normal w, sin)) as Hget.
    { unfold Parameter_get.
      rewrite (EnvironmentProxy_getitem_spec (Env d (Some h))) by apply enter_scope_head.
      rewrite (chain_lookup_own _ _ _ _ w); [done|].
      simpl. by rewrite dict_of_insert_eq, lookup_singleton_eq. }
    rewrite Hget. cbn [fst snd]. eexists. split; [reflexivity|apply exit_scope_head].
  - intros e Hc. unfold Parameter_parameterize, bind.
    by rewrite (call_converter_raises _ _ e).
Qed.

Lemma parameterize_binds_converted_value_witness :
  (∃ s', Parameter_parameterize p2 (VStr "7") (Parameter_get p2) main_thread tests_state
           = (Normal (VInt 7), s') ∧
         context_local s' !! main_thread = Some (Env 1%positive None)) ∧
  Parameter_parameterize p2 (VStr "seven") (Parameter_get p2) main_thread tests_state
    = (Raised (ValueError "invalid literal for int() with base 10"), tests_state).
Proof.
  split.
  - apply (parameterize_binds_converted_value value p2 (VStr "7") (Parameter_get p2)
             main_thread tests_state); reflexivity.
  - apply (parameterize_binds_converted_value value p2 (VStr "seven") (Parameter_get p2)
             main_thread tests_state). reflexivity.
Defined.

(** X10.  Shadowing adds no key: inside [with p.parameterize(v):] the
    length of the environment is what it was outside when [p] was bound
    there, and one more when it was not. *)
Theorem parameterize_len
    (self : parameter) (v w : value) (t : nat) (s : state) (h : Environment) :
  context_local s !! t = Some h →
  chain_allocated h s →
  _converter self v = inr w →
  ((∃ x, Parameter_get self t s = (Normal x, s)) →
     fst (Parameter_parameterize self v EnvironmentProxy_len t s)
       = fst (EnvironmentProxy_len t s)) ∧
  (Parameter_get self t s = (Raised (KeyError (self_id self)), s) →
     ∃ n, fst (EnvironmentProxy_len t s) = Normal n ∧
          fst (Parameter_parameterize self v EnvironmentProxy_len t s) = Normal (S n)).
Proof.
  intros Hh Halloc Hc.
  rewrite (Parameter_parameterize_spec self v w _ t s h Hh Hc). cbn [fst].
  set (d := fresh (dom (heap s))).
  set (sin := enter_scope t d h (with_heap (<[d := {[self_id self := w]}]> (heap s)) s)).
  rewrite (EnvironmentProxy_len_spec (Env d (Some h)) t sin) by apply enter_scope_head.
  rewrite (EnvironmentProxy_len_spec h t s) by done. cbn [fst].
  assert (visible_keys (Env d (Some h)) (heap sin)
          = {[self_id self]} ∪ visible_keys h (heap s)) as ->.
  { simpl. rewrite dict_of_insert_eq, dom_singleton_L. f_equal.
    apply visible_keys_ext. intros r Hr. by apply (new_dict_keeps_chain h). }
  unfold Parameter_get. rewrite (EnvironmentProxy_getitem_spec h) by done.
  pose proof (visible_keys_elem h (self_id self) (heap s)) as Hvis.
  destruct (chain_lookup h (self_id self) (heap s)) as [x|]; split.
  - intros _. f_equal. f_equal. apply set_eq. intros k'.
    rewrite elem_of_union, elem_of_singleton. split; [|by right].
    intros [->|?]; [|done]. apply Hvis. by eexists.
  - by intros [=].
  - by intros [? [=]].
  - intros _. eexists. split; [reflexivity|]. f_equal.
    rewrite size_union, size_singleton; [done|].
    apply disjoint_singleton_l. intros Hin. apply Hvis in Hin. by destruct Hin.
Qed.

Lemma parameterize_len_witness :
  fst (Parameter_parameterize p1 (VInt 50) EnvironmentProxy_len main_thread tests_state)
    = fst (EnvironmentProxy_len main_thread tests_state).
Proof.
  apply (parameterize_len p1 (VInt 50) (VInt 50) main_thread tests_state
           (Env 1%positive None)).
  - reflexivity.
  - exact tests_state_allocated.
  - reflexivity.
  - by exists (VInt 42).
Defined.

(** X11.  Parameters do not interfere: of two parameters constructed one
    after the other, the second has another key, and constructing and
    setting the second leaves the value of the first. *)
Theorem parameters_do_not_interfere
    (d1 d2 v w1 w2 w : value) (c1 c2 : value → exn + value)
    (t : nat) (s : state) (h : Environment) :
  context_local s !! t = Some h →
  c1 d1 = inr w1 → c2 d2 = inr w2 → c2 v = inr w →
  ∃ p q s',
    (p <~ Parameter_new d1 c1 ;;
     q <~ Parameter_new d2 c2 ;;
     Parameter_set q v ;;;
     x <~ Parameter_get p ;;
     y <~ Parameter_get q ;;
     ret (p, q, x, y)) t s = (Normal (p, q, w1, w), s') ∧
    self_id p ≠ self_id q.
Proof.
  intros Hh H1 H2 Hv. unfold bind at 1.
  rewrite (Parameter_new_spec d1 c1 w1 t s h Hh H1).
  set (o1 := fresh (live s)).
  set (s1 := with_heap _ _).
  assert (context_local s1 !! t = Some h) as Hh1 by done.
  unfold bind at 1. rewrite (Parameter_new_spec d2 c2 w2 t s1 h Hh1 H2).
  set (o2 := fresh (live s1)).
  assert (o1 ≠ o2) as Hne.
  { intros Heq. apply (is_fresh (live s1)). fold o2. rewrite <- Heq.
    simpl. apply elem_of_union. left. by apply elem_of_singleton. }
  set (s2 := with_heap _ _).
  assert (context_local s2 !! t = Some h) as Hh2 by done.
  set (p := {| self_id := o1; _converter := c1 |}).
  set (q := {| self_id := o2; _converter := c2 |}).
  unfold bind at 1. rewrite (Parameter_set_spec q v w t s2 h Hh2 Hv).
  set (s3 := with_heap _ s2).
  assert (context_local s3 !! t = Some h) as Hh3 by done.
  assert (chain_lookup h (self_id p) (heap s3) = Some w1) as Hp.
  { change (self_id p) with o1. unfold s3, s2. rewrite !heap_with_heap.
    change (self_id q) with o2.
    rewrite !chain_lookup_write_other by done.
    unfold s1. rewrite heap_with_heap. apply chain_lookup_write. }
  assert (chain_lookup h (self_id q) (heap s3) = Some w) as Hq.
  { unfold s3. rewrite heap_with_heap. apply chain_lookup_write. }
  unfold bind, Parameter_get.
  rewrite (EnvironmentProxy_getitem_spec h _ t s3), Hp by done.
  rewrite (EnvironmentProxy_getitem_spec h _ t s3), Hq by done.
  exists p, q, s3. by split.
Qed.

Lemma parameters_do_not_interfere_witness :
  ∃ p q s',
    (p <~ Parameter_new (VInt 42) identity_converter ;;
     q <~ Parameter_new (VInt 42) py_int ;;
     Parameter_set q (VStr "7") ;;;
     x <~ Parameter_get p ;;
     y <~ Parameter_get q ;;
     ret (p, q, x, y)) main_thread (module_state main_thread)
      = (Normal (p, q, VInt 42, VInt 7), s') ∧
    self_id p ≠ self_id q.
Proof.
  apply (parameters_do_not_interfere (VInt 42) (VInt 42) (VStr "7") (VInt 42) (VInt 42)
           (VInt 7) identity_converter py_int main_thread (module_state main_thread)
           (Env 1%positive None)); reflexivity.
Defined.

(** ** Replacing the context-local object *)

(** X12.  [set_context_locals(ctx)] carries over the environment of the
    calling context and of no other: the caller keeps its head and reads
    every key as before, every other context has from then on what [ctx]
    holds for it.  Called from a context that has no environment it raises
    [AttributeError] and replaces nothing. *)
Theorem set_context_locals_carries_caller_only
    (ctx : gmap nat Environment) (t : nat) (s : state) :
  (∀ h, context_local s !! t = Some h →
     ∃ s', set_context_locals ctx t s = (Normal tt, s') ∧
           context_local s' !! t = Some h ∧
           heap s' = heap s ∧
           (∀ t', t' ≠ t → context_local s' !! t' = ctx !! t') ∧
           (∀ k, EnvironmentProxy_getitem k t s'
                   = (fst (EnvironmentProxy_getitem k t s), s'))) ∧
  (context_local s !! t = None →
     set_context_locals ctx t s = (Raised (AttributeError "dynamic_environment"), s)).
Proof.
  split.
  - intros h Hh. unfold set_context_locals, bind, get_dynamic_environment.
    rewrite Hh. eexists. split; [reflexivity|]. split_and!.
    + simpl. apply lookup_insert_eq.
    + done.
    + intros t' Ht'. simpl. by rewrite lookup_insert_ne.
    + intros k.
      rewrite (EnvironmentProxy_getitem_spec h _ t s) by done.
      rewrite (EnvironmentProxy_getitem_spec h)
        by (simpl; apply lookup_insert_eq).
      simpl heap. by destruct (chain_lookup h k (heap s)).
  - intros Hnone. unfold set_context_locals, bind, get_dynamic_environment.
    by rewrite Hnone.
Qed.

Lemma set_context_locals_carries_caller_only_witness :
  ∃ s', set_context_locals ∅ main_thread scope_state = (Normal tt, s') ∧
        context_local s' !! main_thread = Some scope_frame ∧
        heap s' = heap scope_state ∧
        (∀ t', t' ≠ main_thread → context_local s' !! t' = (∅ : gmap nat Environment) !! t') ∧
        (∀ k, EnvironmentProxy_getitem k main_thread s'
                = (fst (EnvironmentProxy_getitem k main_thread scope_state), s')).
Proof.
  apply (set_context_locals_carries_caller_only ∅ main_thread scope_state).
  reflexivity.
Defined.
